(** * ExcelStorm: the tabular view engine

    A shallow embedding of the table component
    ([src/components/VirtualizedDataTable.jsx]) and of the ingestion step
    ([src/utils/excelParser.js]) of the ExcelStorm React application, and
    the properties its specification states about them.

    JavaScript values are an inductive type, row objects are association
    lists in property order, React state is a record that every handler
    maps to its successor, and the readings of the clock, of the random
    generator and of the confirmation dialog are arguments. *)

From Stdlib Require Import String Ascii List Bool Arith ZArith QArith Lia.
From Stdlib Require Import Permutation Sorted Lqa.
Import ListNotations.

Local Open Scope string_scope.
Local Open Scope list_scope.

(* ================================================================== *)
(** ** JavaScript values *)
(* ================================================================== *)

(** A Number: a finite value (kept as the exact rational it denotes, both
    zeros being [Fin 0]), an infinity, or NaN. *)
Inductive number : Type :=
  | NaN
  | NegInf
  | Fin (q : Q)
  | PosInf.

(** The values a table cell, an identifier or a raw spreadsheet cell can
    hold.  An object is its own properties in insertion order. *)
#[warnings="-register-all"]
Inductive jsval : Type :=
  | JUndefined
  | JNull
  | JBool (b : bool)
  | JNum (n : number)
  | JStr (s : string)
  | JObj (props : list (string * jsval)).

Definition object : Type := list (string * jsval).

(** The exact sum of two Numbers.  It is what [a + b] gives where the
    sum is itself a Number the engine holds, as for [Date.now() + index],
    a sum of two integers far below 2^53. *)
Definition number_add (a b : number) : number :=
  match a, b with
  | NaN, _ | _, NaN => NaN
  | PosInf, NegInf | NegInf, PosInf => NaN
  | PosInf, _ | _, PosInf => PosInf
  | NegInf, _ | _, NegInf => NegInf
  | Fin x, Fin y => Fin (x + y)
  end.

(** Whether [2^e <= n / d], for positive [n] and [d]. *)
Definition reaches_pow2 (n d e : Z) : bool :=
  if (0 <=? e)%Z then (d * 2 ^ e <=? n)%Z else (d <=? n * 2 ^ (- e))%Z.

(** The integer part of the binary logarithm of [n / d]. *)
Definition floor_log2 (n d : Z) : Z :=
  let e := (Z.log2 n - Z.log2 d)%Z in
  if reaches_pow2 n d e then e else (e - 1)%Z.

(** [n / d] to the nearest integer, a half going to the even one. *)
Definition round_half_even (n d : Z) : Z :=
  let q := (n / d)%Z in
  match (2 * (n mod d) ?= d)%Z with
  | Lt => q
  | Gt => (q + 1)%Z
  | Eq => if Z.even q then q else (q + 1)%Z
  end.

(** The double nearest to a rational, a tie going to the even mantissa:
    53 bits of mantissa, exponents from -1022 to 1023 with the subnormals
    below, an infinity beyond. *)
Definition round_double (x : Q) : number :=
  let n := Z.abs (Qnum x) in
  let d := Zpos (Qden x) in
  if (n =? 0)%Z then Fin 0
  else
    let e := Z.max (floor_log2 n d) (-1022) in
    let k := (e - 52)%Z in
    let m := if (0 <=? k)%Z
             then round_half_even n (d * 2 ^ k)
             else round_half_even (n * 2 ^ (- k)) d in
    if (1023 <? e)%Z || ((e =? 1023)%Z && (2 ^ 53 <=? m)%Z)
    then (if (Qnum x <? 0)%Z then NegInf else PosInf)
    else
      let magnitude :=
        if (0 <=? k)%Z then inject_Z (m * 2 ^ k) else Qmake m (Z.to_pos (2 ^ (- k))) in
      Fin (Qred (if (Qnum x <? 0)%Z then - magnitude else magnitude)).

(** [a + b] as the engine computes it on two doubles: the exact sum,
    rounded.  [Date.now() + Math.random()] is such a sum: around
    1.7 * 10^12 the doubles are 2^-12 apart, and a fraction below 2^-13
    is lost. *)
Definition double_add (a b : number) : number :=
  match number_add a b with
  | Fin q => round_double q
  | other => other
  end.

(** [v > 0], with NaN read as [+0]. *)
Definition number_gt0 (v : number) : bool :=
  match v with
  | PosInf => true
  | Fin q => negb (Qle_bool q 0)
  | NaN | NegInf => false
  end.

(** [a - b] on Numbers.  On finite operands the exact difference has the
    sign of the rounded one, which is all a comparator's caller reads. *)
Definition number_sub (a b : number) : number :=
  match a, b with
  | NaN, _ | _, NaN => NaN
  | PosInf, PosInf | NegInf, NegInf => NaN
  | PosInf, _ | _, NegInf => PosInf
  | NegInf, _ | _, PosInf => NegInf
  | Fin x, Fin y => Fin (x - y)
  end.

(** [v < 0], with NaN read as [+0] the way [Array.prototype.sort] reads a
    comparator's result. *)
Definition number_lt0 (v : number) : bool :=
  match v with
  | NegInf => true
  | Fin q => negb (Qle_bool 0 q)
  | NaN | PosInf => false
  end.

Definition number_is_zero (n : number) : bool :=
  match n with
  | Fin q => Qeq_bool q 0
  | _ => false
  end.

(** Equality of Numbers as [===] sees it: NaN differs from itself. *)
Definition number_eqb (a b : number) : bool :=
  match a, b with
  | Fin x, Fin y => Qeq_bool x y
  | PosInf, PosInf | NegInf, NegInf => true
  | _, _ => false
  end.

(** ** The host: what the engine and its locale decide

    [String.prototype.toLowerCase], [String.prototype.localeCompare], the
    conversion of a string to a Number and the printing of a Number belong
    to the JavaScript engine.  Every theorem below holds for any choice of
    them; [ascii_host] is the instance the closed examples run on. *)
Class Host : Type := {
  toLowerCase : string -> string;
  localeCompare : string -> string -> Z;
  StringToNumber : string -> number;
  NumberToString : number -> string
}.

Section Conversions.
Context {host : Host}.

(** [ToBoolean]: the falsy values are [undefined], [null], [false], [0],
    [NaN] and the empty string. *)
Definition ToBoolean (v : jsval) : bool :=
  match v with
  | JUndefined | JNull => false
  | JBool b => b
  | JNum NaN => false
  | JNum n => negb (number_is_zero n)
  | JStr s => negb (String.eqb s "")
  | JObj _ => true
  end.

(** [a || b]. *)
Definition js_or (a b : jsval) : jsval :=
  if ToBoolean a then a else b.

(** [String(v)], also [v.toString()] where [v] is neither [null] nor
    [undefined]. *)
Definition ToString (v : jsval) : string :=
  match v with
  | JUndefined => "undefined"
  | JNull => "null"
  | JBool true => "true"
  | JBool false => "false"
  | JNum n => NumberToString n
  | JStr s => s
  | JObj _ => "[object Object]"
  end.

(** [ToNumber]. *)
Definition ToNumber (v : jsval) : number :=
  match v with
  | JUndefined => NaN
  | JNull => Fin 0
  | JBool true => Fin 1
  | JBool false => Fin 0
  | JNum n => n
  | JStr s => StringToNumber s
  | JObj _ => NaN
  end.

(** The global [isNaN]. *)
Definition isNaN (v : jsval) : bool :=
  match ToNumber v with
  | NaN => true
  | _ => false
  end.

End Conversions.

(** [v == null]: true of [null] and [undefined] only. *)
Definition is_nullish (v : jsval) : bool :=
  match v with
  | JUndefined | JNull => true
  | _ => false
  end.

(** [a === b] on primitives.  Object identity is not represented: the one
    object-valued property, [_originalData], is never compared. *)
Definition strict_equals (a b : jsval) : bool :=
  match a, b with
  | JUndefined, JUndefined => true
  | JNull, JNull => true
  | JBool x, JBool y => Bool.eqb x y
  | JNum x, JNum y => number_eqb x y
  | JStr x, JStr y => String.eqb x y
  | _, _ => false
  end.

(** SameValueZero, the equality of [Set.prototype.has]: as [===], but NaN
    equals itself. *)
Definition same_value_zero (a b : jsval) : bool :=
  match a, b with
  | JNum NaN, JNum NaN => true
  | _, _ => strict_equals a b
  end.

(* ================================================================== *)
(** ** Strings *)
(* ================================================================== *)

(** [s.startsWith(t)]. *)
Fixpoint startsWith (s t : string) : bool :=
  match t, s with
  | EmptyString, _ => true
  | String _ _, EmptyString => false
  | String c t', String d s' => Ascii.eqb c d && startsWith s' t'
  end.

(** [s.includes(t)]. *)
Fixpoint includes (s t : string) : bool :=
  startsWith s t ||
  match s with
  | EmptyString => false
  | String _ s' => includes s' t
  end.

(** [s.substring(0, n)] for [0 <= n]: the first [n] characters. *)
Fixpoint substring0 (n : nat) (s : string) : string :=
  match n, s with
  | O, _ => EmptyString
  | S _, EmptyString => EmptyString
  | S n', String c s' => String c (substring0 n' s')
  end.

(* ================================================================== *)
(** ** Objects and arrays *)
(* ================================================================== *)

(** [o[k]]: the property's value, [undefined] when [o] has none. *)
Fixpoint get (o : object) (k : string) : jsval :=
  match o with
  | [] => JUndefined
  | (k', v) :: rest => if String.eqb k' k then v else get rest k
  end.

(** [o[k] = v] on a copy: an existing property keeps its place. *)
Fixpoint set (o : object) (k : string) (v : jsval) : object :=
  match o with
  | [] => [(k, v)]
  | (k', v') :: rest =>
      if String.eqb k' k then (k', v) :: rest else (k', v') :: set rest k v
  end.

(** [Object.keys(o)]. *)
Definition keys (o : object) : list string := map fst o.

(** [row.id]. *)
Definition id (row : object) : jsval := get row "id".

(** [l.slice(start, end)]: a negative index counts from the end and both
    are clamped to the array. *)
Definition slice {A : Type} (l : list A) (start stop : Z) : list A :=
  let len := Z.of_nat (length l) in
  let k := if (start <? 0)%Z then Z.max (len + start) 0 else Z.min start len in
  let final := if (stop <? 0)%Z then Z.max (len + stop) 0 else Z.min stop len in
  firstn (Z.to_nat (final - k)) (skipn (Z.to_nat k) l).

(** A [Set] of identifiers, in insertion order. *)
Definition idset : Type := list jsval.

(** [set.has(v)]. *)
Definition has (s : idset) (v : jsval) : bool :=
  existsb (same_value_zero v) s.

(** [set.add(v)]. *)
Definition add (s : idset) (v : jsval) : idset :=
  if has s v then s else s ++ [v].

(** [set.delete(v)]. *)
Definition delete (s : idset) (v : jsval) : idset :=
  filter (fun x => negb (same_value_zero v x)) s.

(** [new Set(l)]. *)
Definition new_Set (l : list jsval) : idset :=
  fold_left add l [].

(** [set.size]. *)
Definition size (s : idset) : nat := length s.

(** [l.sort(comparefn)] on a copy.  The algorithm belongs to the engine;
    it is taken to be the stable binary insertion sort: each element, in
    array order, is the pivot placed into the sorted prefix before it, the
    place found by halving with [comparefn(pivot, probe) < 0].  On a
    consistent comparison function every conforming engine returns this
    array; on any other the order is the engine's own, and this is one
    engine's, one that hands [comparefn] the later element first. *)
Section ArraySort.
Context {A : Type}.
Variable comparefn : A -> A -> number.

(** The place of [pivot] in [sorted], searched between [left] and
    [right]; [fuel] bounds the number of probes. *)
Fixpoint search (pivot : A) (sorted : list A) (fuel left right : nat) : nat :=
  match fuel with
  | O => left
  | S fuel' =>
      if (left <? right)%nat then
        let mid := (left + (right - left) / 2)%nat in
        match nth_error sorted mid with
        | Some probe =>
            if number_lt0 (comparefn pivot probe)
            then search pivot sorted fuel' left mid
            else search pivot sorted fuel' (mid + 1)%nat right
        | None => left
        end
      else left
  end.

Definition place (sorted : list A) (pivot : A) : list A :=
  let left := search pivot sorted (length sorted) 0 (length sorted) in
  firstn left sorted ++ pivot :: skipn left sorted.

Definition sort (l : list A) : list A := fold_left place l [].

(** The same insertion on an engine that hands [comparefn] the earlier
    element first: the pivot goes before a probe when
    [comparefn(probe, pivot) > 0]. *)
Fixpoint search_earlier_first (pivot : A) (sorted : list A) (fuel left right : nat)
  : nat :=
  match fuel with
  | O => left
  | S fuel' =>
      if (left <? right)%nat then
        let mid := (left + (right - left) / 2)%nat in
        match nth_error sorted mid with
        | Some probe =>
            if number_gt0 (comparefn probe pivot)
            then search_earlier_first pivot sorted fuel' left mid
            else search_earlier_first pivot sorted fuel' (mid + 1)%nat right
        | None => left
        end
      else left
  end.

Definition place_earlier_first (sorted : list A) (pivot : A) : list A :=
  let left := search_earlier_first pivot sorted (length sorted) 0 (length sorted) in
  firstn left sorted ++ pivot :: skipn left sorted.

Definition sort_earlier_first (l : list A) : list A :=
  fold_left place_earlier_first l [].

End ArraySort.

(* ================================================================== *)
(** ** The component's state *)
(* ================================================================== *)

Inductive direction : Type := asc | desc.

(** [sortConfig]: [key] is [null] or a column name. *)
Record SortConfig : Type := {
  key : option string;
  dir : direction
}.

Definition ITEMS_PER_PAGE_OPTIONS : list Z := [10; 25; 50; 100]%Z.

(** The props [headers] and [data] and the [useState] cells of
    [VirtualizedDataTable].  [onDataChange] replaces [data]. *)
Record State : Type := {
  headers : list string;
  data : list object;
  searchTerm : string;
  sortConfig : SortConfig;
  selectedRows : idset;
  currentPage : Z;
  itemsPerPage : Z;
  editingRow : option object;
  isModalOpen : bool;
  isNewRow : bool
}.

(** The state of a freshly mounted table. *)
Definition mount (hs : list string) (d : list object) : State :=
  {| headers := hs; data := d; searchTerm := "";
     sortConfig := {| key := None; dir := asc |};
     selectedRows := []; currentPage := 1%Z; itemsPerPage := 10%Z;
     editingRow := None; isModalOpen := false; isNewRow := false |}.

Definition onDataChange (updatedData : list object) (st : State) : State :=
  {| headers := headers st; data := updatedData; searchTerm := searchTerm st;
     sortConfig := sortConfig st; selectedRows := selectedRows st;
     currentPage := currentPage st; itemsPerPage := itemsPerPage st;
     editingRow := editingRow st; isModalOpen := isModalOpen st;
     isNewRow := isNewRow st |}.

Definition setSortConfig (c : SortConfig) (st : State) : State :=
  {| headers := headers st; data := data st; searchTerm := searchTerm st;
     sortConfig := c; selectedRows := selectedRows st;
     currentPage := currentPage st; itemsPerPage := itemsPerPage st;
     editingRow := editingRow st; isModalOpen := isModalOpen st;
     isNewRow := isNewRow st |}.

Definition setSelectedRows (s : idset) (st : State) : State :=
  {| headers := headers st; data := data st; searchTerm := searchTerm st;
     sortConfig := sortConfig st; selectedRows := s;
     currentPage := currentPage st; itemsPerPage := itemsPerPage st;
     editingRow := editingRow st; isModalOpen := isModalOpen st;
     isNewRow := isNewRow st |}.

Definition setCurrentPage (p : Z) (st : State) : State :=
  {| headers := headers st; data := data st; searchTerm := searchTerm st;
     sortConfig := sortConfig st; selectedRows := selectedRows st;
     currentPage := p; itemsPerPage := itemsPerPage st;
     editingRow := editingRow st; isModalOpen := isModalOpen st;
     isNewRow := isNewRow st |}.

Definition setItemsPerPage (n : Z) (st : State) : State :=
  {| headers := headers st; data := data st; searchTerm := searchTerm st;
     sortConfig := sortConfig st; selectedRows := selectedRows st;
     currentPage := currentPage st; itemsPerPage := n;
     editingRow := editingRow st; isModalOpen := isModalOpen st;
     isNewRow := isNewRow st |}.

Definition setSearchTerm (s : string) (st : State) : State :=
  {| headers := headers st; data := data st; searchTerm := s;
     sortConfig := sortConfig st; selectedRows := selectedRows st;
     currentPage := currentPage st; itemsPerPage := itemsPerPage st;
     editingRow := editingRow st; isModalOpen := isModalOpen st;
     isNewRow := isNewRow st |}.

Definition setEditingRow (r : option object) (st : State) : State :=
  {| headers := headers st; data := data st; searchTerm := searchTerm st;
     sortConfig := sortConfig st; selectedRows := selectedRows st;
     currentPage := currentPage st; itemsPerPage := itemsPerPage st;
     editingRow := r; isModalOpen := isModalOpen st;
     isNewRow := isNewRow st |}.

Definition setIsModalOpen (b : bool) (st : State) : State :=
  {| headers := headers st; data := data st; searchTerm := searchTerm st;
     sortConfig := sortConfig st; selectedRows := selectedRows st;
     currentPage := currentPage st; itemsPerPage := itemsPerPage st;
     editingRow := editingRow st; isModalOpen := b;
     isNewRow := isNewRow st |}.

Definition setIsNewRow (b : bool) (st : State) : State :=
  {| headers := headers st; data := data st; searchTerm := searchTerm st;
     sortConfig := sortConfig st; selectedRows := selectedRows st;
     currentPage := currentPage st; itemsPerPage := itemsPerPage st;
     editingRow := editingRow st; isModalOpen := isModalOpen st;
     isNewRow := b |}.

(** [l.map((x, i) => f(i, x))], the index starting at [i]. *)
Fixpoint mapi_from {A B : Type} (f : nat -> A -> B) (i : nat) (l : list A) : list B :=
  match l with
  | [] => []
  | x :: rest => f i x :: mapi_from f (S i) rest
  end.

(** [Math.ceil(a / b)] for [0 <= a] and [0 < b], where the quotient of two
    array-sized integers is far from the next integer by more than its
    rounding error. *)
Definition ceil_div (a b : Z) : Z := (- ((- a) / b))%Z.

(* ================================================================== *)
(** ** The view pipeline: filter, sort, paginate *)
(* ================================================================== *)

Section View.
Context {host : Host}.

(** [String(row[header] || '')]: the text a cell is searched by. *)
Definition cellText (row : object) (header : string) : string :=
  ToString (js_or (get row header) (JStr "")).

Definition filteredData (st : State) : list object :=
  if negb (ToBoolean (JStr (searchTerm st))) then data st
  else
    filter (fun row =>
              existsb (fun header =>
                         includes (toLowerCase (cellText row header))
                                  (toLowerCase (searchTerm st)))
                      (headers st))
           (data st).

(** The function given to [sort] in [sortedData]. *)
Definition comparator (k : string) (d : direction) (a b : object) : number :=
  let aValue := get a k in
  let bValue := get b k in
  if is_nullish aValue then Fin 1
  else if is_nullish bValue then Fin (-1)
  else if negb (isNaN aValue) && negb (isNaN bValue) then
    match d with
    | asc => number_sub (ToNumber aValue) (ToNumber bValue)
    | desc => number_sub (ToNumber bValue) (ToNumber aValue)
    end
  else
    let strA := toLowerCase (ToString aValue) in
    let strB := toLowerCase (ToString bValue) in
    match d with
    | asc => Fin (inject_Z (localeCompare strA strB))
    | desc => Fin (inject_Z (localeCompare strB strA))
    end.

(** [!sortConfig.key]: no column, or the column named by the empty
    string. *)
Definition no_sort_key (c : SortConfig) : bool :=
  match key c with
  | None => true
  | Some k => negb (ToBoolean (JStr k))
  end.

Definition sortedData (st : State) : list object :=
  match key (sortConfig st) with
  | None => filteredData st
  | Some k =>
      if negb (ToBoolean (JStr k)) then filteredData st
      else sort (comparator k (dir (sortConfig st))) (filteredData st)
  end.

Definition displayData (st : State) : list object := sortedData st.

Definition totalPages (st : State) : Z :=
  ceil_div (Z.of_nat (length (displayData st))) (itemsPerPage st).

Definition startIndex (st : State) : Z :=
  ((currentPage st - 1) * itemsPerPage st)%Z.

Definition endIndex (st : State) : Z :=
  (startIndex st + itemsPerPage st)%Z.

Definition paginatedData (st : State) : list object :=
  slice (displayData st) (startIndex st) (endIndex st).

Definition isAllSelected (st : State) : bool :=
  (0 <? length (paginatedData st))%nat &&
  forallb (fun row => has (selectedRows st) (id row)) (paginatedData st).

(* ---------------------------------------------------------------- *)
(** *** Effects *)

(** The effect on [searchTerm]: back to page 1, selection cleared. *)
Definition onSearchTermChange (s : string) (st : State) : State :=
  setSelectedRows [] (setCurrentPage 1%Z (setSearchTerm s st)).


(* ---------------------------------------------------------------- *)
(** *** Event handlers *)

Definition handleSort (header : string) (st : State) : State :=
  let prev := sortConfig st in
  let same :=
    match key prev with
    | Some k => String.eqb k header
    | None => false
    end in
  setSortConfig
    {| key := Some header;
       dir := if same && match dir prev with asc => true | desc => false end
              then desc else asc |}
    st.

Definition handleSelectRow (rowId : jsval) (st : State) : State :=
  let prev := selectedRows st in
  setSelectedRows (if has prev rowId then delete prev rowId else add prev rowId) st.

Definition handleSelectAll (checked : bool) (st : State) : State :=
  if checked
  then setSelectedRows (new_Set (map id (paginatedData st))) st
  else setSelectedRows [] st.

Definition handleEditRow (row : object) (st : State) : State :=
  setIsModalOpen true (setIsNewRow false (setEditingRow (Some row) st)).

(** [confirmed] is the answer of [window.confirm]. *)
Definition handleDeleteSelected (confirmed : bool) (st : State) : State :=
  if (size (selectedRows st) =? 0)%nat then st
  else if confirmed then
    let updatedData :=
      filter (fun row => negb (has (selectedRows st) (id row))) (data st) in
    setSelectedRows [] (onDataChange updatedData st)
  else st.

(** [now i] and [random i] are what [Date.now()] and [Math.random()]
    return when the copy of the [i]-th selected row is made. *)
Definition handleDuplicateSelected (now random : nat -> number) (st : State) : State :=
  if (size (selectedRows st) =? 0)%nat then st
  else
    let selected := filter (fun row => has (selectedRows st) (id row)) (data st) in
    let duplicates :=
      mapi_from (fun i row => set row "id" (JNum (double_add (now i) (random i))))
                0 selected in
    setSelectedRows [] (onDataChange (duplicates ++ data st) st).

Definition handleDeleteRow (rowId : jsval) (confirmed : bool) (st : State) : State :=
  if confirmed then
    onDataChange
      (filter (fun row => negb (strict_equals (id row) rowId)) (data st)) st
  else st.

Definition handleSaveRow (row : object) (st : State) : State :=
  let st' :=
    if isNewRow st then onDataChange (row :: data st) st
    else
      onDataChange
        (map (fun r => if strict_equals (id r) (id row) then row else r) (data st))
        st in
  setIsNewRow false (setEditingRow None (setIsModalOpen false st')).

Definition handleCancelEdit (st : State) : State :=
  setEditingRow None (setIsModalOpen false st).

Definition handlePageChange (page : Z) (st : State) : State :=
  setCurrentPage (Z.max 1 (Z.min page (totalPages st))) st.

Definition handleItemsPerPageChange (newItemsPerPage : Z) (st : State) : State :=
  setCurrentPage 1%Z (setItemsPerPage newItemsPerPage st).

End View.

(* ================================================================== *)
(** ** [utils/excelParser.js] *)
(* ================================================================== *)

Section Parser.
Context {host : Host}.

(** [createNewRow()]: [now] is [Date.now()], [today] is
    [new Date().toLocaleDateString('en-GB')]. *)
Definition createNewRow (now : number) (today : string) : object :=
  [ ("id", JNum now);
    ("CHALLAN_NO", JStr "");
    ("A_BANCD", JStr "");
    ("A_BANKL", JStr "");
    ("CHALL_DATE", JStr today);
    ("ACCOUNT_CODE", JStr "");
    ("CHAN_AMT", JStr "0");
    ("NOTES", JStr "") ].

(** The function mapped over [rawData] in [parseExcelFile]: [item] is a
    row as [sheet_to_json] gives it, [now] is [Date.now()]. *)
Definition transformRow (now : number) (index : nat) (item : object) : object :=
  [ ("id", JNum (number_add now (Fin (inject_Z (Z.of_nat index)))));
    ("CHALLAN_NO",
      JStr (substring0 11 (ToString (js_or (get item "Challan Number") (JStr "")))));
    ("A_BANCD", js_or (get item "Bank Code") (JStr ""));
    ("A_BANKL", js_or (get item "Branch Code") (JStr ""));
    ("CHALL_DATE", get item "Date");
    ("ACCOUNT_CODE", js_or (get item "Account Code") (JStr ""));
    ("CHAN_AMT", js_or (get item "Amount") (JStr "0"));
    ("NOTES",
      JStr (substring0 255 (ToString (js_or (get item "Notes") (JStr "")))));
    ("_originalData", JObj item) ].

Definition transformedData (now : nat -> number) (rawData : list object) : list object :=
  mapi_from (fun index item => transformRow (now index) index item) 0 rawData.

(** [Object.keys(first || {}).filter(h => !h.startsWith('_') && h !== 'id')]. *)
Definition headersOf (rows : list object) : list string :=
  filter (fun h => negb (startsWith h "_") && negb (String.eqb h "id"))
         (keys (match rows with first :: _ => first | [] => [] end)).

End Parser.

(** [handleAddRow], which calls [createNewRow]. *)
Definition handleAddRow (now : number) (today : string) (st : State) : State :=
  let newRow := createNewRow now today in
  setIsModalOpen true (setIsNewRow true (setEditingRow (Some newRow) st)).

(* ================================================================== *)
(** ** [components/EditRowModal.jsx] *)
(* ================================================================== *)

(** [handleChange(field, value)] on the form's copy of the row; [value]
    is the text of the input. *)
Definition handleChange (field value : string) (formData : object) : object :=
  set formData field (JStr value).

(** The form after the user's changes, in the order they were made. *)
Definition typed (changes : list (string * string)) (row : object) : object :=
  fold_left (fun formData change => handleChange (fst change) (snd change) formData)
            changes row.

(** [handleSubmit]: the form goes to the table's [handleSaveRow]. *)
Definition handleSubmit (formData : object) (st : State) : State :=
  handleSaveRow formData st.

(* ================================================================== *)
(** ** [utils/excelParser.js]: the exports *)
(* ================================================================== *)

Definition quote : ascii := "034"%char.
Definition newline : ascii := "010"%char.

(** [h => !h.startsWith('_') && h !== 'id']. *)
Definition exported_key (h : string) : bool :=
  negb (startsWith h "_") && negb (String.eqb h "id").

(** [value.replace(pattern, replacement)] of [exportDataAsCSV]: every
    quote character becomes two. *)
Fixpoint double_quotes (value : string) : string :=
  match value with
  | EmptyString => EmptyString
  | String c rest =>
      if Ascii.eqb c quote
      then String quote (String quote (double_quotes rest))
      else String c (double_quotes rest)
  end.

(** The number of quote characters in [s]. *)
Fixpoint count_quotes (s : string) : nat :=
  match s with
  | EmptyString => 0
  | String c rest => (if Ascii.eqb c quote then 1 else 0) + count_quotes rest
  end.

(** [s.split(sep)] for a separator of one character. *)
Fixpoint split (sep : ascii) (s : string) : list string :=
  match s with
  | EmptyString => [EmptyString]
  | String c rest =>
      if Ascii.eqb c sep then EmptyString :: split sep rest
      else match split sep rest with
           | first :: others => String c first :: others
           | [] => [String c EmptyString]
           end
  end.

(** [\d]. *)
Definition is_digit (c : ascii) : bool :=
  let n := nat_of_ascii c in (48 <=? n)%nat && (n <=? 57)%nat.

(** The test of the pattern: two digits, a slash, two digits, a slash,
    four digits, and nothing else. *)
Definition is_ddmmyyyy (s : string) : bool :=
  match s with
  | String d1 (String d2 (String s1 (String m1 (String m2 (String s2
      (String y1 (String y2 (String y3 (String y4 EmptyString))))))))) =>
      is_digit d1 && is_digit d2 && Ascii.eqb s1 "/" &&
      is_digit m1 && is_digit m2 && Ascii.eqb s2 "/" &&
      is_digit y1 && is_digit y2 && is_digit y3 && is_digit y4
  | _ => false
  end.

(** The [i]-th name of an array destructuring. *)
Definition destructured (i : nat) (parts : list string) : jsval :=
  match nth_error parts i with
  | Some p => JStr p
  | None => JUndefined
  end.

(** [Math.max(...l)] for a non-empty [l]; the exports return before
    reaching it on no data. *)
Definition Math_max_spread (l : list Z) : Z :=
  match l with
  | [] => 0%Z
  | x :: rest => fold_left Z.max rest x
  end.

Section Exports.
Context {host : Host}.

(** What [join] writes for an element. *)
Definition join_element (v : jsval) : string :=
  match v with
  | JUndefined | JNull => ""
  | _ => ToString v
  end.

(** [l.join(sep)]. *)
Fixpoint join (sep : string) (l : list jsval) : string :=
  match l with
  | [] => ""
  | [x] => join_element x
  | x :: rest => (join_element x ++ sep ++ join sep rest)%string
  end.

(** The function mapped over the headers of a row in [exportDataAsCSV]. *)
Definition csvCell (value : jsval) : jsval :=
  match value with
  | JStr s =>
      if includes s "," || includes s (String quote "")
      then JStr (String quote (double_quotes s ++ String quote ""))
      else value
  | _ => value
  end.

(** The lines [exportDataAsCSV] joins with a line feed. *)
Definition csvLines (first : object) (data : list object) : list jsval :=
  let headers := filter exported_key (keys first) in
  JStr (join "," (map JStr headers))
  :: map (fun row => JStr (join "," (map (fun header => csvCell (get row header)) headers)))
         data.

(** [csvContent] of [exportDataAsCSV]; [None] is the alert on no data. *)
Definition csvContent (data : list object) : option string :=
  match data with
  | [] => None
  | first :: _ => Some (join (String newline "") (csvLines first data))
  end.

(** The value [exportDataAsExcel] writes for a cell. *)
Definition excelValue (value : jsval) : jsval :=
  match value with
  | JStr s =>
      if is_ddmmyyyy s then
        let parts := split "/" s in
        let day := destructured 0 parts in
        let month := destructured 1 parts in
        let year := destructured 2 parts in
        JStr (ToString year ++ "-" ++ ToString month ++ "-" ++ ToString day)
      else value
  | _ => value
  end.

(** The function mapped over [data] to get [exportData]. *)
Definition excelRow (row : object) : object :=
  fold_left (fun newRow key =>
               if exported_key key
               then set newRow key (excelValue (get row key))
               else newRow)
            (keys row) [].

Definition exportData (data : list object) : list object := map excelRow data.

(** [wch] of one column. *)
Definition columnWidth (rows : list object) (col : string) : Z :=
  Z.max (Z.of_nat (String.length col) + 2)
        (Math_max_spread
           (map (fun row => Z.of_nat (String.length (cellText row col))) rows) + 2).

(** [worksheet['!cols']] of [exportDataAsExcel], with the column each
    width is for; [None] is the alert on no data. *)
Definition columnWidths (data : list object) : option (list (string * Z)) :=
  match data with
  | [] => None
  | _ :: _ =>
      let rows := exportData data in
      let columns := keys (match rows with first :: _ => first | [] => [] end) in
      Some (map (fun col => (col, columnWidth rows col)) columns)
  end.

End Exports.

(* ================================================================== *)
(** ** [App.jsx] *)
(* ================================================================== *)

(** [stats]; a property that was never set is [None]. *)
Record Stats : Type := {
  rowCount : option nat;
  columnCount : option nat;
  fileSize : option string
}.

(** What [parseExcelFile] resolves to. *)
Record ParseResult : Type := {
  result_headers : list string;
  result_data : list object;
  result_error : option string;
  result_rowCount : option nat
}.

(** The [useState] cells of [App]. *)
Record AppState : Type := {
  app_data : list object;
  app_headers : list string;
  loading : bool;
  error : option string;
  fileName : option string;
  stats : option Stats
}.

Definition app_initial : AppState :=
  {| app_data := []; app_headers := []; loading := false; error := None;
     fileName := None; stats := None |}.

(** The file given to the input: its name and its size as
    [(file.size / 1024).toFixed(2)] prints it. *)
Record File : Type := {
  file_name : string;
  file_size_kb : string
}.

(** [handleFileUpload] once [parseExcelFile(file)] has resolved to
    [result]. *)
Definition handleFileUpload (file : File) (result : ParseResult) (s : AppState)
  : AppState :=
  match result_error result with
  | Some message =>
      if ToBoolean (JStr message) then
        {| app_data := []; app_headers := []; loading := false;
           error := Some message; fileName := fileName s; stats := None |}
      else
        {| app_data := result_data result; app_headers := result_headers result;
           loading := false; error := None; fileName := Some (file_name file);
           stats := Some {| rowCount := result_rowCount result;
                            columnCount := Some (length (result_headers result));
                            fileSize := Some (file_size_kb file) |} |}
  | None =>
      {| app_data := result_data result; app_headers := result_headers result;
         loading := false; error := None; fileName := Some (file_name file);
         stats := Some {| rowCount := result_rowCount result;
                          columnCount := Some (length (result_headers result));
                          fileSize := Some (file_size_kb file) |} |}
  end.

(** [handleDataChange], the table's [onDataChange]. *)
Definition handleDataChange (updatedData : list object) (s : AppState) : AppState :=
  {| app_data := updatedData; app_headers := app_headers s; loading := loading s;
     error := error s; fileName := fileName s;
     stats := Some {| rowCount := Some (length updatedData);
                      columnCount := match stats s with
                                     | Some prev => columnCount prev
                                     | None => None
                                     end;
                      fileSize := match stats s with
                                  | Some prev => fileSize prev
                                  | None => None
                                  end |} |}.

Definition handleClear (s : AppState) : AppState :=
  {| app_data := []; app_headers := []; loading := loading s; error := None;
     fileName := None; stats := None |}.

Section AppParser.
Context {host : Host}.

(** What [parseExcelFile] resolves to when the sheet is read as [rawData]. *)
Definition parsed (now : nat -> number) (rawData : list object) : ParseResult :=
  let rows := transformedData now rawData in
  {| result_headers := headersOf rows; result_data := rows; result_error := None;
     result_rowCount := Some (length rows) |}.

End AppParser.

(** The two ways [parseExcelFile] fails: the reader's [onerror], and an
    exception with [message] while the workbook is read. *)
Inductive Failure : Type :=
  | ReadError
  | ParseException (message : string).

(** What it resolves to on a failure. *)
Definition parse_failed (f : Failure) : ParseResult :=
  {| result_headers := []; result_data := [];
     result_error :=
       Some (match f with
             | ReadError => "Error reading file"
             | ParseException message => "Error parsing Excel file: " ++ message
             end)%string;
     result_rowCount := None |}.

(** What the user does to the application. *)
Inductive AppEvent : Type :=
  | Uploaded (file : File) (now : nat -> number) (rawData : list object)
  | UploadFailed (file : File) (f : Failure)
  | DataChanged (updatedData : list object)
  | Cleared.

Definition app_step {host : Host} (s : AppState) (e : AppEvent) : AppState :=
  match e with
  | Uploaded file now rawData => handleFileUpload file (parsed now rawData) s
  | UploadFailed file f => handleFileUpload file (parse_failed f) s
  | DataChanged updatedData => handleDataChange updatedData s
  | Cleared => handleClear s
  end.

(* ================================================================== *)
(** ** An earlier revision of the table

    The sources also keep an earlier revision of the component, whose
    [handleSaveRow] and [handleDuplicateSelected] put the new rows at the
    end, and an earlier [parseExcelFile] that formats the date column. *)
(* ================================================================== *)

Module Earlier.
Section Earlier.
Context {host : Host}.

Definition handleDuplicateSelected (now random : nat -> number) (st : State) : State :=
  if (size (selectedRows st) =? 0)%nat then st
  else
    let rowsToDuplicate :=
      filter (fun row => has (selectedRows st) (id row)) (data st) in
    let duplicatedRows :=
      mapi_from (fun i row => set row "id" (JNum (double_add (now i) (random i))))
                0 rowsToDuplicate in
    let updatedData := data st ++ duplicatedRows in
    setSelectedRows [] (onDataChange updatedData st).

Definition handleSaveRow (formData : object) (st : State) : State :=
  let updatedData :=
    if isNewRow st then data st ++ [formData]
    else map (fun row => if strict_equals (id row) (id formData) then formData else row)
             (data st) in
  setEditingRow None (setIsModalOpen false (onDataChange updatedData st)).

(** [formatDateForSAP] works on [Date] objects, which the value model
    leaves out: it is taken as given, with [today] for [new Date()]. *)
Variable formatDateForSAP : jsval -> string.

Definition transformRow (now : number) (today : jsval) (index : nat) (item : object)
  : object :=
  let sapModelDate := formatDateForSAP (js_or (get item "Challan Date") today) in
  [ ("id", JNum (number_add now (Fin (inject_Z (Z.of_nat index)))));
    ("CHALLAN_NO",
      JStr (substring0 11 (ToString (js_or (get item "Challan Number") (JStr "")))));
    ("A_BANCD", js_or (get item "Bank Code") (JStr ""));
    ("A_BANKL", js_or (get item "Branch Code") (JStr ""));
    ("CHALL_DATE", JStr sapModelDate);
    ("ACCOUNT_CODE", js_or (get item "Account Code") (JStr ""));
    ("CHAN_AMT", js_or (get item "Amount") (JStr "0"));
    ("NOTES",
      JStr (substring0 255 (ToString (js_or (get item "Notes") (JStr "")))));
    ("_originalData", JObj item) ].

End Earlier.
End Earlier.

(* ================================================================== *)
(** ** A host for closed examples

    [ascii_host] agrees with the engine on what the examples use: strings
    of ASCII letters and digits, and numbers written as decimal integers.
    Outside of that it is only some total function. *)
(* ================================================================== *)

Module AsciiHost.

Definition lower (c : ascii) : ascii :=
  let n := nat_of_ascii c in
  if (65 <=? n)%nat && (n <=? 90)%nat then ascii_of_nat (n + 32) else c.

Fixpoint toLowerCase (s : string) : string :=
  match s with
  | EmptyString => EmptyString
  | String c s' => String (lower c) (toLowerCase s')
  end.

Definition localeCompare (a b : string) : Z :=
  match String.compare a b with
  | Lt => (-1)%Z
  | Eq => 0%Z
  | Gt => 1%Z
  end.

Fixpoint digits (s : string) (acc : Z) : option Z :=
  match s with
  | EmptyString => Some acc
  | String c s' =>
      let n := nat_of_ascii c in
      if (48 <=? n)%nat && (n <=? 57)%nat
      then digits s' (10 * acc + Z.of_nat (n - 48))%Z
      else None
  end.

(** The empty string is [0]; an optional minus sign and decimal digits
    are that integer; anything else is NaN here. *)
Definition StringToNumber (s : string) : number :=
  match s with
  | EmptyString => Fin 0
  | String "-" (String _ _ as s') =>
      match digits s' 0 with
      | Some z => Fin (inject_Z (- z))
      | None => NaN
      end
  | _ =>
      match digits s 0 with
      | Some z => Fin (inject_Z z)
      | None => NaN
      end
  end.

Fixpoint digits_of (fuel : nat) (n : Z) (acc : string) : string :=
  match fuel with
  | O => acc
  | S fuel' =>
      let acc' := String (ascii_of_nat (48 + Z.to_nat (n mod 10))) acc in
      if (n <? 10)%Z then acc' else digits_of fuel' (n / 10)%Z acc'
  end.

Definition Z_to_string (z : Z) : string :=
  let body := digits_of (S (Z.to_nat (Z.log2 (Z.abs z)))) (Z.abs z) "" in
  if (z <? 0)%Z then String "-" body else body.

Definition NumberToString (n : number) : string :=
  match n with
  | NaN => "NaN"
  | PosInf => "Infinity"
  | NegInf => "-Infinity"
  | Fin q =>
      let r := Qred q in
      if Pos.eqb (Qden r) 1 then Z_to_string (Qnum r)
      else Z_to_string (Qnum r) ++ "/" ++ Z_to_string (Zpos (Qden r))
  end.

End AsciiHost.

#[export] Instance ascii_host : Host := {
  toLowerCase := AsciiHost.toLowerCase;
  localeCompare := AsciiHost.localeCompare;
  StringToNumber := AsciiHost.StringToNumber;
  NumberToString := AsciiHost.NumberToString
}.

(* ================================================================== *)
(** ** Sample tables *)
(* ================================================================== *)

Module Sample.

Definition row (i : Z) (bank amount : string) : object :=
  [ ("id", JNum (Fin (inject_Z i)));
    ("A_BANCD", JStr bank);
    ("CHAN_AMT", JStr amount) ].

(** A row as the current [parseExcelFile] makes it from a sheet without
    a [Date] column: [CHALL_DATE] is [undefined]. *)
Definition undated (i : Z) (amount : string) : object :=
  [ ("id", JNum (Fin (inject_Z i)));
    ("CHALL_DATE", JUndefined);
    ("CHAN_AMT", JStr amount) ].

Definition dated (i : Z) (date amount : string) : object :=
  [ ("id", JNum (Fin (inject_Z i)));
    ("CHALL_DATE", JStr date);
    ("CHAN_AMT", JStr amount) ].

(** The scenario of the specification: amounts 500, 50, 1000. *)
Definition amounts : State :=
  mount ["A_BANCD"; "CHAN_AMT"]
        [row 1 "BANK00" "500"; row 2 "BANK01" "50"; row 3 "BANK02" "1000"].

(** Two rows with the same amount. *)
Definition tied : State :=
  mount ["A_BANCD"; "CHAN_AMT"] [row 1 "BANK00" "5"; row 2 "BANK01" "5"].

Definition dates : State :=
  mount ["CHALL_DATE"; "CHAN_AMT"]
        [undated 1 "7"; dated 2 "20250301" "8"; undated 3 "9"; dated 4 "20250105" "10"].

(** Twenty-three rows. *)
Definition long : State :=
  mount ["A_BANCD"; "CHAN_AMT"]
        (map (fun i => row (Z.of_nat i) "BANK00" "1") (seq 1 23)).

(** The second row of [amounts] ticked. *)
Definition ticked : State := handleSelectRow (JNum (Fin 2)) amounts.

Definition now (i : nat) : number := Fin (inject_Z (1700000000000 + Z.of_nat i)).
Definition random (i : nat) : number := Fin (1 # 2).

(** A sheet row with neither a date nor notes. *)
Definition item : object :=
  [ ("Challan Number", JStr "10000001001999");
    ("Bank Code", JStr "BANK01");
    ("Amount", JNum (Fin 250)) ].

End Sample.

(** More sample data, for the properties beyond the specification's. *)
Module Cases.

(** A row whose amount is a number, as a numeric cell of the sheet is. *)
Definition priced (i : Z) (amount : Q) : object :=
  [ ("id", JNum (Fin (inject_Z i))); ("CHAN_AMT", JNum (Fin amount)) ].

Definition prices : State :=
  mount ["CHAN_AMT"] [priced 1 30; priced 2 10; priced 3 20].

(** The amount of a [priced] row. *)
Definition amount_of (row : object) : Q :=
  match get row "CHAN_AMT" with
  | JNum (Fin q) => q
  | _ => 0
  end.

Definition time (i : nat) : Q := inject_Z (1700000000000 + Z.of_nat i).

Definition added : object := Sample.row 9 "BANK09" "1".

Definition typing : list (string * string) := [("CHAN_AMT", "75"); ("A_BANCD", "BANK07")].

(** A table whose first row carries a clock reading as its identifier,
    that row ticked; a clock that stands still at that reading, and a
    random number too small to survive the addition. *)
Definition stamped : State :=
  handleSelectRow (JNum (Fin 1700000000000))
    (mount ["A_BANCD"; "CHAN_AMT"]
           [Sample.row 1700000000000 "BANK00" "500"; Sample.row 2 "BANK01" "50"]).

Definition instant (i : nat) : number := Fin 1700000000000.

Definition tiny (i : nat) : number := Fin (1 # 16384).

End Cases.

(* ================================================================== *)
(** ** What the specification's words mean *)
(* ================================================================== *)

(** [t] occurs in [s] as a substring. *)
Definition occurs_in (t s : string) : Prop :=
  exists pre post : string, s = (pre ++ t ++ post)%string.

(** The sort-key value of [row] is [null] or [undefined]. *)
Definition missing (k : string) (row : object) : bool := is_nullish (get row k).

(** [comparefn] puts [x] strictly before [y]: its result on them is
    negative. *)
Definition before {A : Type} (comparefn : A -> A -> number) (x y : A) : Prop :=
  number_lt0 (comparefn x y) = true.

(** The rows of [l] are distinct, all have a value under [k], and the
    ascending comparator on [k] orders them strictly and totally: no two
    of them tie. *)
Definition strictly_ordered {host : Host} (k : string) (l : list object) : Prop :=
  NoDup l /\
  (forall x, In x l -> missing k x = false) /\
  (forall x y, In x l -> In y l -> x <> y ->
     before (comparator k asc) x y \/ before (comparator k asc) y x) /\
  (forall x y, In x l -> In y l ->
     before (comparator k asc) x y -> before (comparator k asc) y x -> False) /\
  (forall x y z, In x l -> In y l -> In z l ->
     before (comparator k asc) x y -> before (comparator k asc) y z ->
     before (comparator k asc) x z).

(** [comparefn] is a consistent comparison function for the elements of
    [l]: an element ties with itself, two elements exchanged get the
    opposite sign, and not being after is transitive. *)
Definition consistent_on {A : Type} (comparefn : A -> A -> number) (l : list A) : Prop :=
  (forall a, In a l ->
     number_lt0 (comparefn a a) = false /\ number_gt0 (comparefn a a) = false) /\
  (forall a b, In a l -> In b l ->
     number_lt0 (comparefn a b) = number_gt0 (comparefn b a)) /\
  (forall a b c, In a l -> In b l -> In c l ->
     number_gt0 (comparefn a b) = false -> number_gt0 (comparefn b c) = false ->
     number_gt0 (comparefn a c) = false).

(** [(item[field] || '').toString()]: the text of a cell of the sheet,
    the cell itself when it is a string. *)
Definition sourceText {host : Host} (item : object) (field : string) : string :=
  ToString (js_or (get item field) (JStr "")).

(** [row] with [f row] for its identifier. *)
Definition reidentify (f : object -> jsval) (row : object) : object :=
  set row "id" (f row).

(** The pages [1 .. n]. *)
Definition pages (n : Z) : list Z := map Z.of_nat (seq 1 (Z.to_nat n)).

(** [dup] is [orig] with its identifier replaced by [fresh]. *)
Definition copy_with_id (fresh : jsval) (orig dup : object) : Prop :=
  id dup = fresh /\
  forall k : string, k <> "id" -> get dup k = get orig k.

(* ================================================================== *)
(** ** Strings: [startsWith] and [includes] *)
(* ================================================================== *)

Lemma startsWith_iff (s t : string) :
  startsWith s t = true <-> exists post : string, s = (t ++ post)%string.
Proof.
  revert s; induction t as [|c t IH]; intros s.
  - split; [intros _; now exists s | intros _; now destruct s].
  - destruct s as [|d s]; cbn [startsWith].
    + split; [discriminate | intros [post H]; discriminate].
    + rewrite andb_true_iff, IH, Ascii.eqb_eq. split.
      * intros [-> [post ->]]. now exists post.
      * intros [post H]. injection H as -> ->. split; [reflexivity | now exists post].
Qed.

Lemma includes_iff (s t : string) : includes s t = true <-> occurs_in t s.
Proof.
  unfold occurs_in. induction s as [|d s IH].
  - cbn [includes]. rewrite orb_false_r, startsWith_iff. split.
    + intros [post H]. now exists EmptyString, post.
    + intros [pre [post H]]. destruct pre as [|c pre]; [now exists post | discriminate].
  - cbn [includes]. rewrite orb_true_iff, IH, startsWith_iff. split.
    + intros [[post H] | [pre [post H]]].
      * now exists EmptyString, post.
      * exists (String d pre), post. simpl. now rewrite H.
    + intros [pre [post H]]. destruct pre as [|c pre].
      * left. now exists post.
      * right. simpl in H. injection H as _ H. now exists pre, post.
Qed.

Lemma substring0_length (n : nat) (s : string) :
  (String.length (substring0 n s) <= n)%nat.
Proof.
  revert s; induction n as [|n IH]; intros [|c s]; simpl; try lia.
  specialize (IH s). lia.
Qed.

Lemma substring0_short (n : nat) (s : string) :
  (String.length s <= n)%nat -> substring0 n s = s.
Proof.
  revert s; induction n as [|n IH]; intros [|c s]; simpl; intros H;
    try reflexivity; try lia.
  f_equal. apply IH. lia.
Qed.

(* ================================================================== *)
(** ** The filter stage *)
(* ================================================================== *)

Section FilterFacts.
Context {host : Host}.

Lemma filteredData_empty_term (st : State) :
  searchTerm st = "" -> filteredData st = data st.
Proof. unfold filteredData. now intros ->. Qed.

(** C1: under a non-empty search term a row of the collection is kept
    exactly when, for at least one header, the lowercased text of its
    cell ([String(row[header] || '')], so a string cell is its own text)
    contains the lowercased search term; a dropped row contains it in
    no column. *)
Theorem filteredData_retains_iff (st : State) (row : object) :
  searchTerm st <> "" ->
  In row (data st) ->
  (In row (filteredData st) <->
   exists header : string,
     In header (headers st) /\
     occurs_in (toLowerCase (searchTerm st))
               (toLowerCase (cellText row header))).
Proof.
  intros Hterm Hrow. unfold filteredData.
  assert (Hb : ToBoolean (JStr (searchTerm st)) = true).
  { simpl. destruct (String.eqb_spec (searchTerm st) ""); [contradiction | reflexivity]. }
  rewrite Hb. cbn [negb]. rewrite filter_In, existsb_exists. split.
  - intros [_ [header [Hin Hinc]]]. exists header. split; [exact Hin|].
    now apply includes_iff.
  - intros [header [Hin Hocc]]. split; [exact Hrow|].
    exists header. split; [exact Hin|]. now apply includes_iff.
Qed.

(** A truthy cell is searched by [String(cell)]; [undefined], [null],
    [false], [0], [NaN] and [''] are searched as the empty text. *)
Lemma cellText_truthy (row : object) (header : string) :
  ToBoolean (get row header) = true ->
  cellText row header = ToString (get row header).
Proof. unfold cellText, js_or. now intros ->. Qed.

Lemma cellText_falsy (row : object) (header : string) :
  ToBoolean (get row header) = false -> cellText row header = "".
Proof. unfold cellText, js_or. now intros ->. Qed.

Lemma cellText_string (row : object) (header s : string) :
  get row header = JStr s -> cellText row header = s.
Proof.
  unfold cellText, js_or. intros ->. simpl.
  destruct (String.eqb_spec s ""); [now subst | reflexivity].
Qed.

End FilterFacts.

(* ================================================================== *)
(** ** The pagination window *)
(* ================================================================== *)

Lemma ceil_div_bounds (a b : Z) :
  (0 < b)%Z -> ((ceil_div a b - 1) * b < a <= ceil_div a b * b)%Z.
Proof.
  intros Hb. unfold ceil_div.
  pose proof (Z.div_mod (- a) b ltac:(lia)) as Hdm.
  pose proof (Z.mod_pos_bound (- a) b Hb) as Hr.
  nia.
Qed.

Lemma ceil_div_zero (b : Z) : ceil_div 0 b = 0%Z.
Proof. reflexivity. Qed.

Lemma slice_window {A : Type} (l : list A) (s n : nat) :
  slice l (Z.of_nat s) (Z.of_nat s + Z.of_nat n) = firstn n (skipn s l).
Proof.
  unfold slice.
  destruct (Z.ltb_spec (Z.of_nat s) 0); [lia|].
  destruct (Z.ltb_spec (Z.of_nat s + Z.of_nat n) 0); [lia|].
  destruct (Nat.le_gt_cases s (length l)) as [Hs | Hs].
  - rewrite (Z.min_l (Z.of_nat s)) by lia. rewrite Nat2Z.id.
    destruct (Nat.le_gt_cases n (length l - s)) as [Hn | Hn].
    + rewrite Z.min_l by lia. f_equal. lia.
    + rewrite Z.min_r by lia.
      rewrite !firstn_all2; [reflexivity | rewrite length_skipn; lia ..].
  - rewrite !Z.min_r by lia. rewrite Z.sub_diag, Nat2Z.id. simpl.
    rewrite (skipn_all2 l (n := s)) by lia. now rewrite firstn_nil.
Qed.

(** Consecutive windows of [n] elements, enough of them to reach the end,
    make up the list. *)
Lemma windows_concat {A : Type} (n m : nat) (l : list A) :
  (length l <= m * n)%nat ->
  concat (map (fun j => firstn n (skipn (j * n) l)) (seq 0 m)) = l.
Proof.
  revert l; induction m as [|m IH]; intros l Hlen.
  - destruct l; [reflexivity | simpl in Hlen; lia].
  - cbn [seq map concat]. rewrite <- seq_shift, map_map.
    transitivity (firstn n l ++ skipn n l); [|apply firstn_skipn].
    f_equal.
    rewrite <- (IH (skipn n l)) by (rewrite length_skipn; lia).
    f_equal. apply map_ext. intros j. rewrite skipn_skipn.
    f_equal. f_equal. simpl. lia.
Qed.

Section PaginationFacts.
Context {host : Host}.

Lemma paginatedData_page (st : State) (j n : nat) :
  itemsPerPage st = Z.of_nat n ->
  paginatedData (setCurrentPage (Z.of_nat (S j)) st)
  = firstn n (skipn (j * n) (displayData st)).
Proof.
  intros Hn. unfold paginatedData, endIndex, startIndex.
  change (displayData (setCurrentPage (Z.of_nat (S j)) st)) with (displayData st).
  change (itemsPerPage (setCurrentPage (Z.of_nat (S j)) st)) with (itemsPerPage st).
  change (currentPage (setCurrentPage (Z.of_nat (S j)) st)) with (Z.of_nat (S j)).
  rewrite Hn.
  replace ((Z.of_nat (S j) - 1) * Z.of_nat n)%Z with (Z.of_nat (j * n)) by lia.
  apply slice_window.
Qed.

Lemma pages_partition_pos (st : State) :
  (0 < itemsPerPage st)%Z ->
  let len := Z.of_nat (length (displayData st)) in
  ((totalPages st - 1) * itemsPerPage st < len <= totalPages st * itemsPerPage st)%Z /\
  (displayData st = [] -> totalPages st = 0%Z) /\
  concat (map (fun p => paginatedData (setCurrentPage p st)) (pages (totalPages st)))
    = displayData st /\
  (forall p : Z, In p (pages (totalPages st)) ->
     paginatedData (setCurrentPage p st) <> [] /\
     (Z.of_nat (length (paginatedData (setCurrentPage p st))) <= itemsPerPage st)%Z).
Proof.
  intros Hpos len. subst len.
  pose proof (ceil_div_bounds (Z.of_nat (length (displayData st)))
                (itemsPerPage st) Hpos) as Hceil.
  fold (totalPages st) in Hceil.
  remember (Z.to_nat (itemsPerPage st)) as n eqn:En.
  assert (Hn : itemsPerPage st = Z.of_nat n) by lia.
  assert (Htp : (0 <= totalPages st)%Z).
  { destruct (Z.le_gt_cases 0 (totalPages st)) as [H | H]; [exact H|].
    exfalso.
    assert (totalPages st * itemsPerPage st <= (-1) * itemsPerPage st)%Z
      by (apply Z.mul_le_mono_nonneg_r; lia).
    lia. }
  split; [exact Hceil|]. split; [|split].
  - intros Hnil. unfold totalPages. rewrite Hnil. apply ceil_div_zero.
  - unfold pages. rewrite map_map.
    rewrite (map_ext_in _ (fun j => firstn n (skipn ((j - 1) * n) (displayData st)))).
    + rewrite <- seq_shift, map_map.
      rewrite (map_ext _ (fun j => firstn n (skipn (j * n) (displayData st)))).
      * apply windows_concat. nia.
      * intros j. simpl. now rewrite Nat.sub_0_r.
    + intros j Hj. apply in_seq in Hj. destruct j as [|j]; [lia|].
      rewrite (paginatedData_page st j n Hn). simpl. now rewrite Nat.sub_0_r.
  - intros p Hp. unfold pages in Hp. apply in_map_iff in Hp.
    destruct Hp as [j [<- Hj]]. apply in_seq in Hj. destruct j as [|j]; [lia|].
    rewrite (paginatedData_page st j n Hn).
    assert (Hlt : (j * n < length (displayData st))%nat) by nia.
    split.
    + intros Hnil. apply (f_equal (@length _)) in Hnil.
      rewrite length_firstn, length_skipn in Hnil. simpl in Hnil. nia.
    + rewrite length_firstn. lia.
Qed.

(** C4: for an allowed page size, [totalPages] is the ceiling of
    [length / pageSize] (the least count of pages that holds every row,
    0 for no rows), and the pages 1 to [totalPages], one after the
    other, are the displayed sequence: none is empty, none exceeds the
    page size, nothing is skipped and nothing appears twice. *)
Theorem pages_partition (st : State) :
  In (itemsPerPage st) ITEMS_PER_PAGE_OPTIONS ->
  let len := Z.of_nat (length (displayData st)) in
  ((totalPages st - 1) * itemsPerPage st < len <= totalPages st * itemsPerPage st)%Z /\
  (displayData st = [] -> totalPages st = 0%Z) /\
  concat (map (fun p => paginatedData (setCurrentPage p st)) (pages (totalPages st)))
    = displayData st /\
  (forall p : Z, In p (pages (totalPages st)) ->
     paginatedData (setCurrentPage p st) <> [] /\
     (Z.of_nat (length (paginatedData (setCurrentPage p st))) <= itemsPerPage st)%Z).
Proof.
  intros Hin. apply pages_partition_pos.
  unfold ITEMS_PER_PAGE_OPTIONS in Hin. simpl in Hin.
  destruct Hin as [H | [H | [H | [H | []]]]]; rewrite <- H; reflexivity.
Qed.

End PaginationFacts.

(* ================================================================== *)
(** ** Objects, index maps and identifier sets *)
(* ================================================================== *)

Lemma get_set_same (o : object) (k : string) (v : jsval) : get (set o k v) k = v.
Proof.
  induction o as [|[k' v'] o IH]; simpl.
  - now rewrite String.eqb_refl.
  - destruct (String.eqb_spec k' k) as [-> | Hne]; simpl.
    + now rewrite String.eqb_refl.
    + destruct (String.eqb_spec k' k); [contradiction | exact IH].
Qed.

Lemma get_set_other (o : object) (k k' : string) (v : jsval) :
  k' <> k -> get (set o k v) k' = get o k'.
Proof.
  intros Hne. induction o as [|[k0 v0] o IH]; simpl.
  - destruct (String.eqb_spec k k'); [congruence | reflexivity].
  - destruct (String.eqb_spec k0 k) as [-> | Hk]; simpl.
    + destruct (String.eqb_spec k k'); [congruence | reflexivity].
    + destruct (String.eqb_spec k0 k'); [reflexivity | exact IH].
Qed.

Lemma mapi_from_length {A B : Type} (f : nat -> A -> B) (i : nat) (l : list A) :
  length (mapi_from f i l) = length l.
Proof. revert i; induction l as [|x l IH]; intros i; simpl; [reflexivity | now rewrite IH]. Qed.

Lemma mapi_from_nth_error {A B : Type} (f : nat -> A -> B) (i j : nat) (l : list A) :
  nth_error (mapi_from f i l) j = option_map (f (i + j)%nat) (nth_error l j).
Proof.
  revert i j; induction l as [|x l IH]; intros i [|j]; simpl; try reflexivity.
  - now rewrite Nat.add_0_r.
  - rewrite IH. now rewrite Nat.add_succ_r.
Qed.

Lemma mapi_from_In {A B : Type} (f : nat -> A -> B) (i : nat) (l : list A) (y : B) :
  In y (mapi_from f i l) ->
  exists (j : nat) (x : A), (j < length l)%nat /\ nth_error l j = Some x /\ y = f (i + j)%nat x.
Proof.
  intros Hin. apply In_nth_error in Hin. destruct Hin as [j Hj].
  rewrite mapi_from_nth_error in Hj.
  destruct (nth_error l j) as [x|] eqn:Hx; [|discriminate]. simpl in Hj.
  injection Hj as <-. exists j, x. split; [|split; [exact Hx | reflexivity]].
  apply nth_error_Some. congruence.
Qed.

Lemma filter_all {A : Type} (f : A -> bool) (l : list A) :
  (forall x, In x l -> f x = true) -> filter f l = l.
Proof.
  induction l as [|x l IH]; intros H; simpl; [reflexivity|].
  rewrite (H x (or_introl eq_refl)). f_equal. apply IH. intros; apply H; now right.
Qed.

Lemma filter_none {A : Type} (f : A -> bool) (l : list A) :
  (forall x, In x l -> f x = false) -> filter f l = [].
Proof.
  induction l as [|x l IH]; intros H; simpl; [reflexivity|].
  rewrite (H x (or_introl eq_refl)). apply IH. intros; apply H; now right.
Qed.

Lemma number_eqb_sym (a b : number) : number_eqb a b = number_eqb b a.
Proof.
  destruct a, b; simpl; try reflexivity.
  destruct (Qeq_bool q q0) eqn:E1, (Qeq_bool q0 q) eqn:E2; try reflexivity.
  - apply Qeq_bool_iff in E1. symmetry in E1. apply Qeq_bool_iff in E1. congruence.
  - apply Qeq_bool_iff in E2. symmetry in E2. apply Qeq_bool_iff in E2. congruence.
Qed.

Lemma number_eqb_trans (a b c : number) :
  number_eqb a b = true -> number_eqb b c = true -> number_eqb a c = true.
Proof.
  destruct a, b, c; simpl; try discriminate; try reflexivity.
  intros H1 H2. apply Qeq_bool_iff in H1, H2. apply Qeq_bool_iff.
  now transitivity q0.
Qed.

Ltac split_values :=
  repeat match goal with
         | v : jsval |- _ => destruct v
         | n : number |- _ => destruct n
         | b : bool |- _ => destruct b
         end;
  simpl; try reflexivity; try discriminate.

Lemma same_value_zero_number (n : number) : same_value_zero (JNum n) (JNum n) = true.
Proof. split_values. apply Qeq_bool_iff. reflexivity. Qed.

Lemma same_value_zero_sym (a b : jsval) : same_value_zero a b = same_value_zero b a.
Proof.
  split_values.
  - apply (number_eqb_sym (Fin q0) (Fin q)).
  - apply String.eqb_sym.
Qed.

Lemma same_value_zero_trans (a b c : jsval) :
  same_value_zero a b = true -> same_value_zero b c = true ->
  same_value_zero a c = true.
Proof.
  split_values.
  - apply (number_eqb_trans (Fin q1) (Fin q0) (Fin q)).
  - rewrite !String.eqb_eq. congruence.
Qed.

Lemma has_add (s : idset) (x v : jsval) :
  has (add s x) v = has s v || same_value_zero v x.
Proof.
  unfold add. destruct (has s x) eqn:Hx.
  - destruct (same_value_zero v x) eqn:Hvx; [|now rewrite orb_false_r].
    rewrite orb_true_r. unfold has in *. apply existsb_exists in Hx.
    destruct Hx as [y [Hy Hxy]]. apply existsb_exists. exists y. split; [exact Hy|].
    now apply same_value_zero_trans with x.
  - unfold has. rewrite existsb_app. simpl. now rewrite orb_false_r.
Qed.

Lemma has_fold_add (l : list jsval) (s : idset) (v : jsval) :
  has (fold_left add l s) v = has s v || existsb (same_value_zero v) l.
Proof.
  revert s; induction l as [|x l IH]; intros s; simpl.
  - now rewrite orb_false_r.
  - rewrite IH, has_add. now rewrite orb_assoc.
Qed.

Lemma has_new_Set (l : list jsval) (v : jsval) :
  has (new_Set l) v = existsb (same_value_zero v) l.
Proof. unfold new_Set. now rewrite has_fold_add. Qed.

Lemma new_Set_nil_inv (l : list jsval) : new_Set l = [] -> l = [].
Proof.
  unfold new_Set. intros H.
  assert (Hlen : forall l s, (length s <= length (fold_left add l s))%nat).
  { clear. induction l as [|x l IH]; intros s; simpl; [lia|].
    specialize (IH (add s x)). unfold add in *.
    destruct (has s x); [exact IH|]. rewrite length_app in IH. simpl in IH. lia. }
  destruct l as [|x l]; [reflexivity|]. simpl in H.
  specialize (Hlen l (add [] x)). rewrite H in Hlen. simpl in Hlen. lia.
Qed.

(* ================================================================== *)
(** ** The mutation operations *)
(* ================================================================== *)

Section MutationFacts.
Context {host : Host}.

(** C5: Add, that is [handleAddRow] followed by the modal's save of the
    new record [row], puts [row] in front of the collection and leaves
    every earlier record where it was, one place further down. *)
Theorem add_prepends (now : number) (today : string) (row : object) (st : State) :
  let st' := handleSaveRow row (handleAddRow now today st) in
  editingRow (handleAddRow now today st) = Some (createNewRow now today) /\
  data st' = row :: data st /\
  (forall i : nat, nth_error (data st') (S i) = nth_error (data st) i).
Proof. repeat split. Qed.

Lemma add_twice_latest_first (n1 n2 : number) (t1 t2 : string) (r1 r2 : object)
      (st : State) :
  data (handleSaveRow r2 (handleAddRow n2 t2 (handleSaveRow r1 (handleAddRow n1 t1 st))))
  = r2 :: r1 :: data st.
Proof. reflexivity. Qed.

Lemma handleDuplicateSelected_data (now random : nat -> number) (st : State) :
  selectedRows st <> [] ->
  data (handleDuplicateSelected now random st)
  = mapi_from (fun i row => set row "id" (JNum (double_add (now i) (random i)))) 0
      (filter (fun row => has (selectedRows st) (id row)) (data st))
    ++ data st.
Proof.
  intros Hsel. unfold handleDuplicateSelected, size.
  destruct (selectedRows st); [contradiction | reflexivity].
Qed.

(** C6: under a non-empty selection, Duplicate-many returns the copies
    followed by the unchanged collection; the [i]-th copy is the [i]-th
    selected record, in collection order, with every field but [id]
    equal and [id] the freshly minted [Date.now() + Math.random()]. *)
Theorem duplicates_prepended (now random : nat -> number) (st : State) :
  selectedRows st <> [] ->
  let selected := filter (fun row => has (selectedRows st) (id row)) (data st) in
  exists duplicates : list object,
    data (handleDuplicateSelected now random st) = duplicates ++ data st /\
    length duplicates = length selected /\
    forall (i : nat) (orig : object),
      nth_error selected i = Some orig ->
      exists dup : object,
        nth_error duplicates i = Some dup /\
        copy_with_id (JNum (double_add (now i) (random i))) orig dup.
Proof.
  intros Hsel selected.
  eexists. split; [apply (handleDuplicateSelected_data now random st Hsel)|].
  fold selected. split; [apply mapi_from_length|].
  intros i orig Hi. rewrite mapi_from_nth_error, Hi. simpl.
  eexists. split; [reflexivity|]. unfold copy_with_id, id. split.
  - apply get_set_same.
  - intros k Hk. now apply get_set_other.
Qed.

(** C7: when no identifier minted for a copy equals (as [Set.has]
    compares) the identifier of a record already present, Duplicate-many
    followed by Delete-many with exactly the copies' identifiers
    selected gives back the original collection, same records in the
    same order. *)
Theorem duplicate_then_delete (now random : nat -> number) (st : State) :
  selectedRows st <> [] ->
  (forall (i : nat) (row : object),
      (i < length (filter (fun r => has (selectedRows st) (id r)) (data st)))%nat ->
      In row (data st) ->
      same_value_zero (id row) (JNum (double_add (now i) (random i))) = false) ->
  let st1 := handleDuplicateSelected now random st in
  let copies := firstn (length (data st1) - length (data st)) (data st1) in
  data (handleDeleteSelected true (setSelectedRows (new_Set (map id copies)) st1))
  = data st.
Proof.
  intros Hsel Hfresh st1 copies.
  pose proof (handleDuplicateSelected_data now random st Hsel) as Hdata.
  fold st1 in Hdata.
  set (selected := filter (fun r => has (selectedRows st) (id r)) (data st)) in *.
  set (dups := mapi_from
                 (fun i row => set row "id" (JNum (double_add (now i) (random i))))
                 0 selected) in *.
  assert (Hcopies : copies = dups).
  { unfold copies. rewrite Hdata, length_app.
    replace (length dups + length (data st) - length (data st))%nat
      with (length dups) by lia.
    rewrite firstn_app, Nat.sub_diag, firstn_all. simpl. apply app_nil_r. }
  rewrite Hcopies. unfold handleDeleteSelected, size.
  change (selectedRows (setSelectedRows (new_Set (map id dups)) st1))
    with (new_Set (map id dups)).
  change (data (setSelectedRows (new_Set (map id dups)) st1)) with (data st1).
  destruct (length (new_Set (map id dups)) =? 0)%nat eqn:Hsize.
  - apply Nat.eqb_eq, length_zero_iff_nil, new_Set_nil_inv, map_eq_nil in Hsize.
    change (data (setSelectedRows (new_Set (map id dups)) st1)) with (data st1).
    now rewrite Hdata, Hsize.
  - change (data (setSelectedRows [] (onDataChange ?d _))) with d.
    rewrite Hdata, filter_app, filter_none, filter_all; [reflexivity | |].
    + intros row Hrow. rewrite has_new_Set.
      apply negb_true_iff, not_true_is_false. intros Hex.
      apply existsb_exists in Hex. destruct Hex as [v [Hv Hsame]].
      apply in_map_iff in Hv. destruct Hv as [dup [<- Hdup]].
      apply mapi_from_In in Hdup. destruct Hdup as [j [orig [Hj [_ ->]]]].
      unfold id at 2 in Hsame. rewrite get_set_same in Hsame.
      cbn [Nat.add] in Hsame.
      rewrite (Hfresh j row Hj Hrow) in Hsame. discriminate.
    + intros dup Hdup. rewrite has_new_Set.
      apply negb_false_iff, existsb_exists. exists (id dup).
      split; [now apply in_map|].
      apply mapi_from_In in Hdup. destruct Hdup as [j [orig [_ [_ ->]]]].
      unfold id. rewrite get_set_same. apply same_value_zero_number.
Qed.

(** C8: Edit, that is [handleEditRow] followed by the modal's save of
    the edited record [r], keeps the length; at every position a record
    whose [id] is strictly equal to [r]'s is replaced by [r] and any
    other record stays; with no such record the collection is
    unchanged. *)
Theorem edit_replaces_in_place (opened r : object) (st : State) :
  let st' := handleSaveRow r (handleEditRow opened st) in
  length (data st') = length (data st) /\
  (forall (i : nat) (r0 : object),
      nth_error (data st) i = Some r0 ->
      nth_error (data st') i
      = Some (if strict_equals (id r0) (id r) then r else r0)) /\
  ((forall r0 : object, In r0 (data st) -> strict_equals (id r0) (id r) = false) ->
   data st' = data st).
Proof.
  cbn zeta.
  change (data (handleSaveRow r (handleEditRow opened st)))
    with (map (fun r0 => if strict_equals (id r0) (id r) then r else r0) (data st)).
  split; [apply length_map|]. split.
  - intros i r0 Hi. now rewrite nth_error_map, Hi.
  - intros Hnone. rewrite <- (map_id (data st)) at 2. apply map_ext_in.
    intros r0 Hr0. now rewrite (Hnone r0 Hr0).
Qed.

End MutationFacts.

(** The earlier revision put new and copied rows at the end. *)
Lemma earlier_add_appends {host : Host} (now : number) (today : string) (row : object)
      (st : State) :
  data (Earlier.handleSaveRow row (handleAddRow now today st)) = data st ++ [row].
Proof. reflexivity. Qed.

Lemma earlier_duplicates_appended {host : Host} (now random : nat -> number) (st : State) :
  selectedRows st <> [] ->
  exists duplicates : list object,
    data (Earlier.handleDuplicateSelected now random st) = data st ++ duplicates /\
    length duplicates
    = length (filter (fun row => has (selectedRows st) (id row)) (data st)).
Proof.
  intros Hsel. unfold Earlier.handleDuplicateSelected, size.
  destruct (selectedRows st) as [|v sel] eqn:Hs; [contradiction|].
  eexists. split; [reflexivity | apply mapi_from_length].
Qed.

(* ================================================================== *)
(** ** [sort]: binary insertion *)
(* ================================================================== *)

Section SortFacts.
Context {A : Type}.
Variable comparefn : A -> A -> number.

Lemma search_bounds (pivot : A) (sorted : list A) (fuel left right : nat) :
  (left <= right)%nat ->
  (left <= search comparefn pivot sorted fuel left right <= right)%nat.
Proof.
  revert left right; induction fuel as [|fuel IH]; intros left right Hlr;
    cbn [search].
  - lia.
  - destruct (Nat.ltb_spec left right) as [Hlt | Hge]; [|lia].
    assert (Hmid : (left <= left + (right - left) / 2 < right)%nat).
    { assert ((right - left) / 2 < right - left)%nat by (apply Nat.div_lt; lia).
      lia. }
    destruct (nth_error sorted (left + (right - left) / 2)) as [probe|]; [|lia].
    destruct (number_lt0 (comparefn pivot probe)).
    + specialize (IH left (left + (right - left) / 2)%nat). lia.
    + specialize (IH (left + (right - left) / 2 + 1)%nat right). lia.
Qed.

(** The halving ends within [right - left] probes: more fuel than that
    changes nothing. *)
Lemma search_fuel (pivot : A) (sorted : list A) (fuel fuel' left right : nat) :
  (right - left <= fuel)%nat -> (right - left <= fuel')%nat ->
  search comparefn pivot sorted fuel left right
  = search comparefn pivot sorted fuel' left right.
Proof.
  revert fuel' left right; induction fuel as [|fuel IH];
    intros fuel' left right Hf Hf'.
  - destruct fuel' as [|fuel']; cbn [search]; [reflexivity|].
    destruct (Nat.ltb_spec left right); [lia | reflexivity].
  - destruct fuel' as [|fuel']; cbn [search].
    + destruct (Nat.ltb_spec left right); [lia | reflexivity].
    + destruct (Nat.ltb_spec left right) as [Hlt | Hnlt]; [|reflexivity].
      assert (Hmid : (left <= left + (right - left) / 2 < right)%nat).
      { assert ((right - left) / 2 < right - left)%nat by (apply Nat.div_lt; lia).
        lia. }
      destruct (nth_error sorted (left + (right - left) / 2)) as [probe|];
        [|reflexivity].
      destruct (number_lt0 (comparefn pivot probe)); apply IH; lia.
Qed.

(** A pivot that is before no probe goes to the right end. *)
Lemma search_right (pivot : A) (sorted : list A) (fuel left right : nat) :
  (forall probe, In probe sorted -> number_lt0 (comparefn pivot probe) = false) ->
  (right - left <= fuel)%nat ->
  (left <= right <= length sorted)%nat ->
  search comparefn pivot sorted fuel left right = right.
Proof.
  intros Hge. revert left right; induction fuel as [|fuel IH];
    intros left right Hfuel Hlr; cbn [search].
  - lia.
  - destruct (Nat.ltb_spec left right) as [Hlt | Hnlt]; [|lia].
    assert (Hmid : (left <= left + (right - left) / 2 < right)%nat).
    { assert ((right - left) / 2 < right - left)%nat by (apply Nat.div_lt; lia).
      lia. }
    destruct (nth_error sorted (left + (right - left) / 2)) as [probe|] eqn:Hp.
    + rewrite (Hge probe (nth_error_In _ _ Hp)). apply IH; lia.
    + apply nth_error_None in Hp. lia.
Qed.

(** A pivot that is before every probe from index [K] on goes no
    further than [K]. *)
Lemma search_stops_before (pivot : A) (sorted : list A) (K fuel left right : nat) :
  (forall m probe, (K <= m)%nat -> nth_error sorted m = Some probe ->
                   number_lt0 (comparefn pivot probe) = true) ->
  (left <= K)%nat ->
  (search comparefn pivot sorted fuel left right <= K)%nat.
Proof.
  intros Hlt. revert left right; induction fuel as [|fuel IH];
    intros left right HK; cbn [search].
  - exact HK.
  - destruct (left <? right)%nat; [|exact HK].
    destruct (nth_error sorted (left + (right - left) / 2)) as [probe|] eqn:Hp;
      [|exact HK].
    destruct (number_lt0 (comparefn pivot probe)) eqn:Hc.
    + now apply IH.
    + apply IH.
      destruct (Nat.le_gt_cases K (left + (right - left) / 2)) as [Hle | Hgt]; [|lia].
      rewrite (Hlt _ _ Hle Hp) in Hc. discriminate.
Qed.

Lemma place_Permutation (sorted : list A) (pivot : A) :
  Permutation (place comparefn sorted pivot) (pivot :: sorted).
Proof.
  unfold place. symmetry.
  rewrite <- (firstn_skipn (search comparefn pivot sorted (length sorted) 0
                              (length sorted)) sorted) at 1.
  apply Permutation_middle.
Qed.

Lemma fold_place_Permutation (l acc : list A) :
  Permutation (fold_left (place comparefn) l acc) (acc ++ l).
Proof.
  revert acc; induction l as [|x l IH]; intros acc; simpl.
  - now rewrite app_nil_r.
  - rewrite IH, place_Permutation. apply Permutation_middle.
Qed.

(** The sorted array holds the elements of the array, each as often. *)
Lemma sort_Permutation (l : list A) : Permutation (sort comparefn l) l.
Proof. apply (fold_place_Permutation l []). Qed.

Lemma sort_length (l : list A) : length (sort comparefn l) = length l.
Proof. apply Permutation_length, sort_Permutation. Qed.

End SortFacts.

(** Elements the comparator sends behind all others: they end up last,
    in the order they came in. *)
Section MissingLast.
Context {A : Type}.
Variable comparefn : A -> A -> number.
Variable miss : A -> bool.

Hypothesis miss_never_before :
  forall x y, miss x = true -> number_lt0 (comparefn x y) = false.
Hypothesis present_before_miss :
  forall x y, miss x = false -> miss y = true ->
              number_lt0 (comparefn x y) = true.

Let present (x : A) : Prop := miss x = false.
Let absent (x : A) : Prop := miss x = true.

Lemma place_absent (pres mis : list A) (pivot : A) :
  absent pivot ->
  place comparefn (pres ++ mis) pivot = pres ++ (mis ++ [pivot]).
Proof.
  intros Hp. unfold place.
  rewrite search_right; try lia.
  - rewrite firstn_all, skipn_all. now rewrite <- app_assoc.
  - intros probe _. now apply miss_never_before.
Qed.

Lemma place_present (pres mis : list A) (pivot : A) :
  Forall present pres -> Forall absent mis -> present pivot ->
  exists pres' : list A,
    place comparefn (pres ++ mis) pivot = pres' ++ mis /\ Forall present pres'.
Proof.
  intros Hpres Hmis Hp. unfold place.
  set (p := search comparefn pivot (pres ++ mis) (length (pres ++ mis)) 0
              (length (pres ++ mis))).
  assert (Hle : (p <= length pres)%nat).
  { apply search_stops_before; [|lia].
    intros m probe Hm Hnth. rewrite nth_error_app2 in Hnth by exact Hm.
    apply present_before_miss; [exact Hp|].
    rewrite Forall_forall in Hmis. apply Hmis. eapply nth_error_In, Hnth. }
  exists (firstn p pres ++ pivot :: skipn p pres). split.
  - rewrite firstn_app, skipn_app.
    replace (p - length pres)%nat with 0%nat by lia. simpl.
    rewrite app_nil_r, <- app_assoc. reflexivity.
  - apply Permutation_Forall with (pivot :: pres).
    + rewrite <- (firstn_skipn p pres) at 1. apply Permutation_middle.
    + now constructor.
Qed.

Lemma fold_place_absent_last (l pres mis : list A) :
  Forall present pres -> Forall absent mis ->
  exists pres' : list A,
    fold_left (place comparefn) l (pres ++ mis) = pres' ++ mis ++ filter miss l /\
    Forall present pres'.
Proof.
  revert pres mis; induction l as [|x l IH]; intros pres mis Hpres Hmis; simpl.
  - exists pres. now rewrite app_nil_r.
  - destruct (miss x) eqn:Hx.
    + rewrite place_absent by exact Hx.
      destruct (IH pres (mis ++ [x]) Hpres) as [pres' [Heq Hall]].
      { apply Forall_app. split; [exact Hmis | now constructor]. }
      exists pres'. split; [|exact Hall]. rewrite Heq, <- app_assoc. reflexivity.
    + destruct (place_present pres mis x Hpres Hmis Hx) as [pres1 [-> Hpres1]].
      apply IH; assumption.
Qed.

Lemma sort_absent_last (l : list A) :
  exists pres : list A,
    sort comparefn l = pres ++ filter miss l /\ Forall present pres.
Proof.
  destruct (fold_place_absent_last l [] []) as [pres [Heq Hall]];
    [constructor | constructor |].
  exists pres. split; [exact Heq | exact Hall].
Qed.

End MissingLast.

Section SortedDataFacts.
Context {host : Host}.

Lemma sortedData_sorts (st : State) (k : string) (d : direction) :
  sortConfig st = {| key := Some k; dir := d |} ->
  k <> "" ->
  sortedData st = sort (comparator k d) (filteredData st).
Proof.
  intros Hcfg Hk. unfold sortedData. rewrite Hcfg. simpl.
  destruct (String.eqb_spec k ""); [contradiction | reflexivity].
Qed.

Lemma comparator_missing_left (k : string) (d : direction) (a b : object) :
  missing k a = true -> comparator k d a b = Fin 1.
Proof. unfold missing, comparator. now intros ->. Qed.

Lemma comparator_missing_right (k : string) (d : direction) (a b : object) :
  missing k a = false -> missing k b = true -> comparator k d a b = Fin (-1).
Proof. unfold missing, comparator. now intros -> ->. Qed.

Lemma sortedData_missing_split (st : State) (k : string) (d : direction) :
  sortConfig st = {| key := Some k; dir := d |} ->
  k <> "" ->
  exists pres : list object,
    sortedData st = pres ++ filter (missing k) (filteredData st) /\
    Forall (fun row => missing k row = false) pres.
Proof.
  intros Hcfg Hk. rewrite (sortedData_sorts st k d Hcfg Hk).
  apply sort_absent_last.
  - intros x y Hx. now rewrite comparator_missing_left.
  - intros x y Hx Hy. now rewrite comparator_missing_right.
Qed.

(** On an engine that hands the comparator the later element first, as
    [sort] does: when the table is sorted on column [k], in either
    direction, no row whose value under [k] is [null] or [undefined]
    stands ahead of a row that has a value, and the rows without a value
    are in the order the filter stage gave them. *)
Theorem missing_values_last (st : State) (k : string) (d : direction) :
  sortConfig st = {| key := Some k; dir := d |} ->
  k <> "" ->
  (forall (i j : nat) (a b : object),
      nth_error (sortedData st) i = Some a ->
      nth_error (sortedData st) j = Some b ->
      missing k a = true -> missing k b = false -> (j < i)%nat) /\
  filter (missing k) (sortedData st) = filter (missing k) (filteredData st).
Proof.
  intros Hcfg Hk.
  destruct (sortedData_missing_split st k d Hcfg Hk) as [pres [-> Hpres]].
  rewrite Forall_forall in Hpres. split.
  - intros i j a b Ha Hb Hma Hmb.
    assert (Hi : (length pres <= i)%nat).
    { destruct (Nat.le_gt_cases (length pres) i) as [H | H]; [exact H|].
      rewrite nth_error_app1 in Ha by exact H.
      apply nth_error_In, Hpres in Ha. congruence. }
    destruct (Nat.le_gt_cases (length pres) j) as [H | H]; [|lia].
    rewrite nth_error_app2 in Hb by exact H.
    apply nth_error_In, filter_In in Hb. destruct Hb as [_ Hb]. congruence.
  - rewrite filter_app, filter_none.
    + simpl. apply filter_all. intros x Hx. now apply filter_In in Hx.
    + exact Hpres.
Qed.

End SortedDataFacts.

(* ================================================================== *)
(** ** Sorting rows that never tie *)
(* ================================================================== *)

Lemma StronglySorted_nth_error {A : Type} (R : A -> A -> Prop) (l : list A) :
  StronglySorted R l ->
  forall (i j : nat) (x y : A),
    (i < j)%nat -> nth_error l i = Some x -> nth_error l j = Some y -> R x y.
Proof.
  induction 1 as [|a l Hs IH Hall]; intros i j x y Hij Hi Hj.
  - destruct i; discriminate.
  - destruct j as [|j]; [lia|]. simpl in Hj. destruct i as [|i]; simpl in Hi.
    + injection Hi as <-. rewrite Forall_forall in Hall.
      eapply Hall, nth_error_In, Hj.
    + apply (IH i j); [lia | assumption ..].
Qed.

Lemma StronglySorted_middle {A : Type} (R : A -> A -> Prop) (l1 l2 : list A) (x : A) :
  StronglySorted R (l1 ++ l2) ->
  Forall (fun a => R a x) l1 ->
  Forall (R x) l2 ->
  StronglySorted R (l1 ++ x :: l2).
Proof.
  induction l1 as [|a l1 IH]; simpl; intros Hs H1 H2.
  - now constructor.
  - inversion Hs as [|? ? Hs' Hall]; subst. inversion H1; subst.
    constructor; [now apply IH|].
    apply Forall_app in Hall. destruct Hall as [Ha1 Ha2].
    apply Forall_app. split; [exact Ha1 | now constructor].
Qed.

Lemma StronglySorted_rev {A : Type} (R : A -> A -> Prop) (l : list A) :
  StronglySorted R l -> StronglySorted (fun x y => R y x) (rev l).
Proof.
  induction 1 as [|a l Hs IH Hall]; simpl; [constructor|].
  rewrite <- (app_nil_r (rev l ++ [a])), <- app_assoc. simpl.
  apply StronglySorted_middle.
  - now rewrite app_nil_r.
  - apply Forall_rev. exact Hall.
  - constructor.
Qed.

Lemma StronglySorted_weaken {A : Type} (R R' : A -> A -> Prop) (l : list A) :
  (forall x y, In x l -> In y l -> R x y -> R' x y) ->
  StronglySorted R l -> StronglySorted R' l.
Proof.
  intros Himp Hs. induction Hs as [|a l Hs IH Hall]; [constructor|].
  constructor.
  - apply IH. intros x y Hx Hy. apply Himp; now right.
  - rewrite Forall_forall in *. intros y Hy.
    apply Himp; [now left | now right | now apply Hall].
Qed.

(** Two arrangements of the same elements, both sorted by a relation
    that never holds both ways, are the same list. *)
Lemma sorted_arrangement_unique {A : Type} (R : A -> A -> Prop) (l1 l2 : list A) :
  (forall x y, In x l1 -> In y l1 -> R x y -> R y x -> False) ->
  Permutation l1 l2 ->
  StronglySorted R l1 -> StronglySorted R l2 ->
  l1 = l2.
Proof.
  revert l2; induction l1 as [|a l1 IH]; intros l2 Hasym Hperm Hs1 Hs2.
  - apply Permutation_nil in Hperm. now subst.
  - destruct l2 as [|b l2].
    + apply Permutation_sym, Permutation_nil in Hperm. discriminate.
    + inversion Hs1 as [|? ? Hs1' Hall1]; subst.
      inversion Hs2 as [|? ? Hs2' Hall2]; subst.
      rewrite Forall_forall in Hall1, Hall2.
      assert (Hab : a = b).
      { assert (Ha : In a (b :: l2)) by (eapply Permutation_in; [exact Hperm | now left]).
        assert (Hb : In b (a :: l1))
          by (eapply Permutation_in; [symmetry; exact Hperm | now left]).
        destruct Ha as [Ha | Ha]; [now symmetry|].
        destruct Hb as [Hb | Hb]; [exact Hb|].
        exfalso. apply (Hasym a b); [now left | now right | now apply Hall1 | now apply Hall2]. }
      subst b. f_equal. apply IH.
      * intros x y Hx Hy. apply Hasym; now right.
      * eapply Permutation_cons_inv, Hperm.
      * exact Hs1'.
      * exact Hs2'.
Qed.

Section StrictSort.
Context {A : Type}.
Variable comparefn : A -> A -> number.
Variable univ : list A.

Hypothesis total :
  forall x y, In x univ -> In y univ -> x <> y ->
              before comparefn x y \/ before comparefn y x.
Hypothesis trans :
  forall x y z, In x univ -> In y univ -> In z univ ->
                before comparefn x y -> before comparefn y z -> before comparefn x z.

(** What the halving finds in a sorted prefix: [pivot] is before no
    element left of the place and before every element from it on. *)
Lemma search_splits (pivot : A) (sorted : list A) :
  In pivot univ -> incl sorted univ ->
  StronglySorted (before comparefn) sorted ->
  forall fuel left right : nat,
    (right - left <= fuel)%nat ->
    (left <= right <= length sorted)%nat ->
    (forall i x, (i < left)%nat -> nth_error sorted i = Some x ->
                 ~ before comparefn pivot x) ->
    (forall i x, (right <= i)%nat -> nth_error sorted i = Some x ->
                 before comparefn pivot x) ->
    let p := search comparefn pivot sorted fuel left right in
    (forall i x, (i < p)%nat -> nth_error sorted i = Some x ->
                 ~ before comparefn pivot x) /\
    (forall i x, (p <= i)%nat -> nth_error sorted i = Some x ->
                 before comparefn pivot x).
Proof.
  intros Hpivot Hincl Hsorted.
  pose proof (StronglySorted_nth_error _ _ Hsorted) as Hnth.
  induction fuel as [|fuel IH]; intros left right Hfuel Hlr Hl Hr; cbn [search].
  - cbv zeta. split; [exact Hl|]. intros i x Hi. apply Hr. lia.
  - destruct (Nat.ltb_spec left right) as [Hlt | Hnlt].
    2:{ cbv zeta. split; [exact Hl|]. intros i x Hi. apply Hr. lia. }
    assert (Hmid : (left <= left + (right - left) / 2 < right)%nat).
    { assert ((right - left) / 2 < right - left)%nat by (apply Nat.div_lt; lia).
      lia. }
    set (mid := (left + (right - left) / 2)%nat) in *.
    destruct (nth_error sorted mid) as [probe|] eqn:Hp.
    2:{ apply nth_error_None in Hp. lia. }
    assert (Hprobe : In probe univ) by (eapply Hincl, nth_error_In, Hp).
    destruct (number_lt0 (comparefn pivot probe)) eqn:Hc.
    + apply IH; [lia | lia | exact Hl |].
      intros i x Hi Hx. destruct (Nat.eq_dec i mid) as [-> | Hne].
      * rewrite Hp in Hx. injection Hx as <-. exact Hc.
      * apply (trans pivot probe x); [exact Hpivot | exact Hprobe | | exact Hc |].
        -- eapply Hincl, nth_error_In, Hx.
        -- apply (Hnth mid i); [lia | exact Hp | exact Hx].
    + apply IH; [lia | lia | | exact Hr].
      intros i x Hi Hx Hbefore. destruct (Nat.eq_dec i mid) as [-> | Hne].
      * rewrite Hp in Hx. injection Hx as <-. unfold before in Hbefore. congruence.
      * assert (Hxp : before comparefn x probe)
          by (apply (Hnth i mid); [lia | exact Hx | exact Hp]).
        assert (Hx' : In x univ) by (eapply Hincl, nth_error_In, Hx).
        pose proof (trans pivot x probe Hpivot Hx' Hprobe Hbefore Hxp) as Hpp.
        unfold before in Hpp. congruence.
Qed.

Lemma Forall_firstn_nth_error (P : A -> Prop) (l : list A) (p : nat) :
  (forall i x, (i < p)%nat -> nth_error l i = Some x -> P x) ->
  Forall P (firstn p l).
Proof.
  intros H. apply Forall_forall. intros x Hx.
  apply In_nth_error in Hx. destruct Hx as [i Hi].
  assert (Hlen : (i < length (firstn p l))%nat) by (apply nth_error_Some; congruence).
  rewrite length_firstn in Hlen.
  rewrite nth_error_firstn in Hi.
  destruct (Nat.ltb_spec i p); [|lia]. now apply (H i).
Qed.

Lemma Forall_skipn_nth_error (P : A -> Prop) (l : list A) (p : nat) :
  (forall i x, (p <= i)%nat -> nth_error l i = Some x -> P x) ->
  Forall P (skipn p l).
Proof.
  intros H. apply Forall_forall. intros x Hx.
  apply In_nth_error in Hx. destruct Hx as [i Hi].
  rewrite nth_error_skipn in Hi. apply (H (p + i)%nat); [lia | exact Hi].
Qed.

Lemma place_sorted (sorted : list A) (pivot : A) :
  In pivot univ -> incl sorted univ -> ~ In pivot sorted ->
  StronglySorted (before comparefn) sorted ->
  StronglySorted (before comparefn) (place comparefn sorted pivot).
Proof.
  intros Hpivot Hincl Hnotin Hsorted. unfold place.
  destruct (search_splits pivot sorted Hpivot Hincl Hsorted
              (length sorted) 0 (length sorted)) as [Hleft Hright];
    try lia.
  { intros i x Hi Hx.
    assert (i < length sorted)%nat by (apply nth_error_Some; congruence). lia. }
  set (p := search comparefn pivot sorted (length sorted) 0 (length sorted)) in *.
  apply StronglySorted_middle.
  - now rewrite firstn_skipn.
  - apply Forall_firstn_nth_error. intros i x Hi Hx.
    assert (Hin : In x sorted) by (eapply nth_error_In, Hx).
    destruct (total x pivot) as [H | H]; [now apply Hincl | exact Hpivot | | exact H |].
    + intros ->. contradiction.
    + exfalso. now apply (Hleft i x).
  - apply Forall_skipn_nth_error. exact Hright.
Qed.

Lemma fold_place_sorted (l acc : list A) :
  NoDup (acc ++ l) -> incl (acc ++ l) univ ->
  StronglySorted (before comparefn) acc ->
  StronglySorted (before comparefn) (fold_left (place comparefn) l acc).
Proof.
  revert acc; induction l as [|x l IH]; intros acc Hnd Hincl Hs; simpl.
  - exact Hs.
  - assert (Hperm : Permutation (acc ++ x :: l) (place comparefn acc x ++ l)).
    { rewrite place_Permutation. symmetry. apply Permutation_middle. }
    apply IH.
    + eapply Permutation_NoDup; [exact Hperm | exact Hnd].
    + intros y Hy. apply Hincl. eapply Permutation_in; [symmetry; exact Hperm | exact Hy].
    + apply place_sorted.
      * apply Hincl, in_elt.
      * intros y Hy. apply Hincl, in_or_app. now left.
      * apply NoDup_remove_2 in Hnd. intros Hin. apply Hnd, in_or_app. now left.
      * exact Hs.
Qed.

Lemma sort_sorted (l : list A) :
  NoDup l -> incl l univ ->
  StronglySorted (before comparefn) (sort comparefn l).
Proof.
  intros Hnd Hincl. apply (fold_place_sorted l []); [exact Hnd | exact Hincl | constructor].
Qed.

End StrictSort.

(* ================================================================== *)
(** ** Clicking a header twice *)
(* ================================================================== *)

Section SortTwice.
Context {host : Host}.

Lemma handleSort_new_column (header : string) (st : State) :
  key (sortConfig st) <> Some header ->
  sortConfig (handleSort header st) = {| key := Some header; dir := asc |}.
Proof.
  intros Hne. unfold handleSort. simpl.
  destruct (key (sortConfig st)) as [k|]; [|reflexivity].
  destruct (String.eqb_spec k header); [congruence | reflexivity].
Qed.

Lemma handleSort_same_column (header : string) (st : State) :
  sortConfig st = {| key := Some header; dir := asc |} ->
  sortConfig (handleSort header st) = {| key := Some header; dir := desc |}.
Proof. intros H. unfold handleSort. rewrite H. simpl. now rewrite String.eqb_refl. Qed.

Lemma handleSort_back_to_asc (header : string) (st : State) :
  sortConfig st = {| key := Some header; dir := desc |} ->
  sortConfig (handleSort header st) = {| key := Some header; dir := asc |}.
Proof. intros H. unfold handleSort. rewrite H. simpl. now rewrite String.eqb_refl. Qed.

(** Between two rows that both have a value, descending is ascending
    with the rows exchanged. *)
Lemma comparator_desc_flip (k : string) (a b : object) :
  missing k a = false -> missing k b = false ->
  comparator k desc a b = comparator k asc b a.
Proof.
  unfold missing, comparator. intros -> ->.
  destruct (isNaN (get a k)), (isNaN (get b k)); reflexivity.
Qed.

Lemma sorted_desc_is_rev_asc (k : string) (l : list object) :
  strictly_ordered k l ->
  sort (comparator k desc) l = rev (sort (comparator k asc) l).
Proof.
  intros (Hnd & Hpres & Htotal & Hasym & Htrans).
  assert (Hflip : forall x y, In x l -> In y l ->
            (before (comparator k desc) x y <-> before (comparator k asc) y x)).
  { intros x y Hx Hy. unfold before.
    now rewrite comparator_desc_flip by (apply Hpres; assumption). }
  assert (Hasc : StronglySorted (before (comparator k asc)) (sort (comparator k asc) l)).
  { apply (sort_sorted (comparator k asc) l Htotal Htrans l Hnd (incl_refl l)). }
  assert (Hdesc : StronglySorted (before (comparator k desc)) (sort (comparator k desc) l)).
  { apply (sort_sorted (comparator k desc) l); [| | exact Hnd | apply incl_refl].
    - intros x y Hx Hy Hne. rewrite !Hflip by assumption.
      destruct (Htotal x y Hx Hy Hne); [now right | now left].
    - intros x y z Hx Hy Hz. rewrite !Hflip by assumption.
      intros Hyx Hzy. now apply (Htrans z y x). }
  assert (Hin : forall x, In x (sort (comparator k desc) l) -> In x l).
  { intros x. apply Permutation_in, sort_Permutation. }
  apply (sorted_arrangement_unique (fun x y => before (comparator k asc) y x)).
  - intros x y Hx Hy Hyx Hxy. apply (Hasym x y); auto.
  - rewrite sort_Permutation, <- Permutation_rev. symmetry. apply sort_Permutation.
  - apply (StronglySorted_weaken (before (comparator k desc))); [|exact Hdesc].
    intros x y Hx Hy. apply Hflip; auto.
  - apply StronglySorted_rev. exact Hasc.
Qed.

(** C2, as the code has it: a first click on a column sorts ascending,
    a second one descending; both results hold the filtered rows, each
    as often; and when no two rows tie on the column (all have a value
    and the comparator orders them strictly) the second result is the
    first one reversed. *)
Theorem sort_twice_reverses (header : string) (st : State) :
  header <> "" ->
  key (sortConfig st) <> Some header ->
  let once := handleSort header st in
  let twice := handleSort header once in
  sortConfig once = {| key := Some header; dir := asc |} /\
  sortConfig twice = {| key := Some header; dir := desc |} /\
  Permutation (sortedData twice) (sortedData once) /\
  (strictly_ordered header (filteredData st) ->
   sortedData twice = rev (sortedData once)).
Proof.
  intros Hne Hnew once twice.
  pose proof (handleSort_new_column header st Hnew) as Honce. fold once in Honce.
  pose proof (handleSort_same_column header once Honce) as Htwice. fold twice in Htwice.
  rewrite (sortedData_sorts twice header desc Htwice Hne).
  rewrite (sortedData_sorts once header asc Honce Hne).
  change (filteredData twice) with (filteredData st).
  change (filteredData once) with (filteredData st).
  split; [exact Honce|]. split; [exact Htwice|]. split.
  - rewrite !sort_Permutation. reflexivity.
  - apply sorted_desc_is_rev_asc.
Qed.

(** C10: the empty string is a number to the comparator.  On an engine
    that reads [''] as 0 and ['5'] as 5, [isNaN('')] is false, the
    comparator answers the difference [0 - 5] for the row holding ['']
    against the row holding ['5'], and sorting those two rows ascending
    puts the empty one first. *)
Theorem empty_string_sorts_as_zero :
  StringToNumber "" = Fin 0 ->
  StringToNumber "5" = Fin 5 ->
  let blank := [("id", JNum (Fin 2)); ("CHAN_AMT", JStr "")] in
  let five := [("id", JNum (Fin 1)); ("CHAN_AMT", JStr "5")] in
  let st := handleSort "CHAN_AMT" (mount ["CHAN_AMT"] [five; blank]) in
  isNaN (JStr "") = false /\
  comparator "CHAN_AMT" asc blank five = number_sub (Fin 0) (Fin 5) /\
  sortedData st = [blank; five].
Proof.
  intros H0 H5 blank five st.
  assert (Hnan : isNaN (JStr "") = false) by (unfold isNaN; simpl; now rewrite H0).
  assert (Hnan5 : isNaN (JStr "5") = false) by (unfold isNaN; simpl; now rewrite H5).
  assert (Hcmp : comparator "CHAN_AMT" asc blank five = number_sub (Fin 0) (Fin 5)).
  { unfold comparator. simpl get. cbn [is_nullish]. rewrite Hnan, Hnan5.
    simpl. now rewrite H0, H5. }
  split; [exact Hnan|]. split; [exact Hcmp|].
  unfold st, sortedData. simpl. unfold sort. simpl fold_left.
  unfold place at 1. simpl. unfold place. cbn [length search Nat.ltb Nat.leb].
  simpl nth_error. rewrite Hcmp. reflexivity.
Qed.

End SortTwice.

(* ================================================================== *)
(** ** Ingestion *)
(* ================================================================== *)

Lemma get_absent (o : object) (k : string) : ~ In k (keys o) -> get o k = JUndefined.
Proof.
  induction o as [|[k' v] o IH]; simpl; intros Hnot; [reflexivity|].
  destruct (String.eqb_spec k' k) as [-> | Hne].
  - exfalso. apply Hnot. now left.
  - apply IH. intros Hin. apply Hnot. now right.
Qed.

Section IngestionFacts.
Context {host : Host}.

Lemma js_or_undefined (d : jsval) : js_or JUndefined d = d.
Proof. reflexivity. Qed.

Lemma substring0_prefix (n : nat) (s : string) :
  exists rest : string,
    s = (substring0 n s ++ rest)%string /\
    String.length (substring0 n s) = Nat.min n (String.length s).
Proof.
  revert s; induction n as [|n IH]; intros s.
  - exists s. split; reflexivity.
  - destruct s as [|c s]; [exists ""; split; reflexivity|].
    destruct (IH s) as [rest [Hs Hlen]]. exists rest. cbn [substring0].
    split; [simpl; now rewrite <- Hs | simpl; now rewrite Hlen].
Qed.

(** C9, as the code has it: a produced record has the fixed properties
    and its headers are the seven target columns; a source field other
    than the date that the row lacks becomes the empty string, ["0"]
    for the amount; [CHALLAN_NO] is a string of at most 11 characters
    and [NOTES] one of at most 255, namely the text of the sheet's cell
    cut after its first 11, respectively 255, characters. *)
Theorem transformRow_normalizes (now : number) (index : nat) (item : object) :
  let r := transformRow now index item in
  keys r = ["id"; "CHALLAN_NO"; "A_BANCD"; "A_BANKL"; "CHALL_DATE";
            "ACCOUNT_CODE"; "CHAN_AMT"; "NOTES"; "_originalData"] /\
  headersOf [r] = ["CHALLAN_NO"; "A_BANCD"; "A_BANKL"; "CHALL_DATE";
                   "ACCOUNT_CODE"; "CHAN_AMT"; "NOTES"] /\
  (~ In "Challan Number" (keys item) -> get r "CHALLAN_NO" = JStr "") /\
  (~ In "Bank Code" (keys item) -> get r "A_BANCD" = JStr "") /\
  (~ In "Branch Code" (keys item) -> get r "A_BANKL" = JStr "") /\
  (~ In "Account Code" (keys item) -> get r "ACCOUNT_CODE" = JStr "") /\
  (~ In "Notes" (keys item) -> get r "NOTES" = JStr "") /\
  (~ In "Amount" (keys item) -> get r "CHAN_AMT" = JStr "0") /\
  (exists s : string, get r "CHALLAN_NO" = JStr s /\ (String.length s <= 11)%nat) /\
  (exists s : string, get r "NOTES" = JStr s /\ (String.length s <= 255)%nat) /\
  (exists s rest : string,
     get r "CHALLAN_NO" = JStr s /\
     sourceText item "Challan Number" = (s ++ rest)%string /\
     String.length s = Nat.min 11 (String.length (sourceText item "Challan Number"))) /\
  (exists s rest : string,
     get r "NOTES" = JStr s /\
     sourceText item "Notes" = (s ++ rest)%string /\
     String.length s = Nat.min 255 (String.length (sourceText item "Notes"))).
Proof.
  cbv zeta. split; [reflexivity|]. split; [reflexivity|].
  assert (Habsent : forall field other,
             ~ In field (keys item) -> js_or (get item field) other = other).
  { intros field other Habs. now rewrite (get_absent _ _ Habs). }
  split; [intros Habs; cbn [transformRow get String.eqb Ascii.eqb Bool.eqb];
          now rewrite (Habsent _ _ Habs)|].
  split; [intros Habs; cbn [transformRow get String.eqb Ascii.eqb Bool.eqb];
          now rewrite (Habsent _ _ Habs)|].
  split; [intros Habs; cbn [transformRow get String.eqb Ascii.eqb Bool.eqb];
          now rewrite (Habsent _ _ Habs)|].
  split; [intros Habs; cbn [transformRow get String.eqb Ascii.eqb Bool.eqb];
          now rewrite (Habsent _ _ Habs)|].
  split; [intros Habs; cbn [transformRow get String.eqb Ascii.eqb Bool.eqb];
          now rewrite (Habsent _ _ Habs)|].
  split; [intros Habs; cbn [transformRow get String.eqb Ascii.eqb Bool.eqb];
          now rewrite (Habsent _ _ Habs)|].
  split; [eexists; split; [reflexivity | apply substring0_length]|].
  split; [eexists; split; [reflexivity | apply substring0_length]|].
  split.
  - destruct (substring0_prefix 11 (sourceText item "Challan Number"))
      as [rest [Htext Hlen]].
    exists (substring0 11 (sourceText item "Challan Number")), rest.
    split; [reflexivity | split; [exact Htext | exact Hlen]].
  - destruct (substring0_prefix 255 (sourceText item "Notes")) as [rest [Htext Hlen]].
    exists (substring0 255 (sourceText item "Notes")), rest.
    split; [reflexivity | split; [exact Htext | exact Hlen]].
Qed.

(** The text that is cut is the cell's own: a short one is kept whole. *)
Lemma transformRow_keeps_short (now : number) (index : nat) (item : object) (s : string) :
  get item "Challan Number" = JStr s ->
  (String.length s <= 11)%nat ->
  get (transformRow now index item) "CHALLAN_NO" = JStr s.
Proof.
  intros Hs Hlen. cbn [transformRow get String.eqb Ascii.eqb Bool.eqb].
  rewrite Hs. unfold js_or, ToBoolean.
  destruct (String.eqb_spec s "") as [-> | Hne]; cbn [negb ToString];
    [reflexivity|].
  f_equal. now apply substring0_short.
Qed.

(** The date column is the raw [Date] cell: nothing stands in for a
    missing one. *)
Lemma transformRow_date (now : number) (index : nat) (item : object) :
  get (transformRow now index item) "CHALL_DATE" = get item "Date".
Proof. reflexivity. Qed.

(** The earlier revision formats the [Challan Date] cell, or today. *)
Lemma earlier_transformRow_date (fmt : jsval -> string) (now : number) (today : jsval)
      (index : nat) (item : object) :
  ~ In "Challan Date" (keys item) ->
  get (Earlier.transformRow fmt now today index item) "CHALL_DATE" = JStr (fmt today).
Proof.
  intros Habs. cbn [Earlier.transformRow get String.eqb Ascii.eqb Bool.eqb].
  now rewrite (get_absent _ _ Habs).
Qed.

End IngestionFacts.

(* ================================================================== *)
(** ** The sample tables, run *)
(* ================================================================== *)

Example amounts_ascending :
  map (fun r => get r "CHAN_AMT") (sortedData (handleSort "CHAN_AMT" Sample.amounts))
  = [JStr "50"; JStr "500"; JStr "1000"].
Proof. vm_compute. reflexivity. Qed.

Example amounts_descending :
  map (fun r => get r "CHAN_AMT")
      (sortedData (handleSort "CHAN_AMT" (handleSort "CHAN_AMT" Sample.amounts)))
  = [JStr "1000"; JStr "500"; JStr "50"].
Proof. vm_compute. reflexivity. Qed.

Example search_bank01 :
  map id (filteredData (onSearchTermChange "bank01" Sample.amounts)) = [JNum (Fin 2)].
Proof. vm_compute. reflexivity. Qed.

(** On the engine of [sort], which hands the comparator the later
    element first; the two undated rows are a pair on which the
    comparator is not consistent. *)
Example dates_sorted_both_ways :
  map id (sortedData (handleSort "CHALL_DATE" Sample.dates))
  = [JNum (Fin 4); JNum (Fin 2); JNum (Fin 1); JNum (Fin 3)] /\
  map id (sortedData (handleSort "CHALL_DATE" (handleSort "CHALL_DATE" Sample.dates)))
  = [JNum (Fin 2); JNum (Fin 4); JNum (Fin 1); JNum (Fin 3)].
Proof. split; vm_compute; reflexivity. Qed.

(** The sum of a clock reading and a random number is a double: a
    random number of 2^-14 is rounded away, the copy gets the identifier
    of its original, and deleting the copy deletes the original too. *)
Example rounded_identifier_collides :
  double_add (Cases.instant 0) (Cases.tiny 0) = Fin 1700000000000 /\
  number_add (Cases.instant 0) (Cases.tiny 0) = Fin (27852800000000001 # 16384) /\
  map id (data (handleDuplicateSelected Cases.instant Cases.tiny Cases.stamped))
  = [JNum (Fin 1700000000000); JNum (Fin 1700000000000); JNum (Fin 2)] /\
  map id (data (handleDeleteSelected true
                  (setSelectedRows
                     (new_Set (map id (firstn 1 (data (handleDuplicateSelected
                                                         Cases.instant Cases.tiny
                                                         Cases.stamped)))))
                     (handleDuplicateSelected Cases.instant Cases.tiny Cases.stamped))))
  = [JNum (Fin 2)].
Proof. repeat split; vm_compute; reflexivity. Qed.

(** Doubles at and beyond the edge of exactness: 0.1 + 0.2, a tie that
    goes to the even neighbour, and a sum too large for a double. *)
Example double_add_rounds :
  double_add (Fin (3602879701896397 # 36028797018963968))
             (Fin (3602879701896397 # 18014398509481984))
  = Fin (1351079888211149 # 4503599627370496) /\
  double_add (Fin 9007199254740992) (Fin 1) = Fin 9007199254740992 /\
  double_add (Fin 9007199254740992) (Fin 3) = Fin 9007199254740996 /\
  double_add (Fin (2 ^ 1023)) (Fin (2 ^ 1023)) = PosInf /\
  double_add PosInf NegInf = NaN.
Proof. repeat split; vm_compute; reflexivity. Qed.

Example long_has_three_pages :
  totalPages Sample.long = 3%Z /\
  map (fun p => length (paginatedData (setCurrentPage p Sample.long)))
      (pages (totalPages Sample.long))
  = [10; 10; 3]%nat.
Proof. split; vm_compute; reflexivity. Qed.

Example item_transformed :
  get (transformRow (Sample.now 0) 0 Sample.item) "CHALLAN_NO" = JStr "10000001001" /\
  get (transformRow (Sample.now 0) 0 Sample.item) "CHAN_AMT" = JNum (Fin 250) /\
  get (transformRow (Sample.now 0) 0 Sample.item) "NOTES" = JStr "".
Proof. repeat split. Qed.

(** The three rows of [Sample.amounts] never tie on the amount. *)
Lemma amounts_strictly_ordered :
  strictly_ordered "CHAN_AMT" (filteredData Sample.amounts).
Proof.
  change (filteredData Sample.amounts) with (data Sample.amounts).
  unfold strictly_ordered. repeat split.
  - repeat constructor; simpl; intuition discriminate.
  - intros x Hx. simpl in Hx. intuition (subst; reflexivity).
  - intros x y Hx Hy Hne. simpl in Hx, Hy.
    destruct Hx as [<- | [<- | [<- | []]]]; destruct Hy as [<- | [<- | [<- | []]]];
      try contradiction; (left; reflexivity) || (right; reflexivity).
  - intros x y Hx Hy. simpl in Hx, Hy.
    destruct Hx as [<- | [<- | [<- | []]]]; destruct Hy as [<- | [<- | [<- | []]]];
      vm_compute; intros; discriminate.
  - intros x y z Hx Hy Hz. simpl in Hx, Hy, Hz.
    destruct Hx as [<- | [<- | [<- | []]]]; destruct Hy as [<- | [<- | [<- | []]]];
      destruct Hz as [<- | [<- | [<- | []]]];
      vm_compute; intros; solve [reflexivity | discriminate].
Qed.

Lemma filteredData_retains_iff_witness :
  searchTerm (onSearchTermChange "bank01" Sample.amounts) <> "" /\
  In (Sample.row 2 "BANK01" "50") (data (onSearchTermChange "bank01" Sample.amounts)) /\
  In (Sample.row 2 "BANK01" "50")
     (filteredData (onSearchTermChange "bank01" Sample.amounts)).
Proof.
  split; [discriminate|]. split; [simpl; auto|].
  apply (filteredData_retains_iff (onSearchTermChange "bank01" Sample.amounts)).
  - discriminate.
  - simpl; auto.
  - exists "A_BANCD". split; [simpl; auto|]. exists "", "". reflexivity.
Defined.

(** Two rows that tie stay as they were under both directions: the second
    click does not reverse the first. *)
Lemma sort_twice_keeps_ties :
  let once := handleSort "CHAN_AMT" Sample.tied in
  let twice := handleSort "CHAN_AMT" once in
  map id (sortedData once) = [JNum (Fin 1); JNum (Fin 2)] /\
  map id (sortedData twice) = [JNum (Fin 1); JNum (Fin 2)] /\
  sortedData twice <> rev (sortedData once).
Proof.
  cbv zeta. split; [vm_compute; reflexivity|]. split; [vm_compute; reflexivity|].
  vm_compute. intros H. discriminate H.
Qed.

Lemma sort_twice_reverses_witness :
  "CHAN_AMT" <> "" /\
  key (sortConfig Sample.amounts) <> Some "CHAN_AMT" /\
  sortedData (handleSort "CHAN_AMT" (handleSort "CHAN_AMT" Sample.amounts))
  = rev (sortedData (handleSort "CHAN_AMT" Sample.amounts)).
Proof.
  split; [discriminate|]. split; [discriminate|].
  apply (sort_twice_reverses "CHAN_AMT" Sample.amounts);
    [discriminate | discriminate | exact amounts_strictly_ordered].
Defined.

(** C3: the comparator answers 1 for two rows that both lack the sort
    key, whichever comes first and in both directions, where a tie would
    keep them in order; it is then no consistent comparison function and
    the engine decides where such rows go.  On the rows of
    [Sample.dates], sorted on [CHALL_DATE], an engine that hands the
    later element first leaves the two undated rows as the filter stage
    gave them, and one that hands the earlier element first exchanges
    them. *)
Theorem missing_pair_order_is_the_engines :
  let m1 := Sample.undated 1 "7" in
  let m3 := Sample.undated 3 "9" in
  let rows := filteredData (handleSort "CHALL_DATE" Sample.dates) in
  In m1 rows /\ In m3 rows /\
  (forall d : direction,
      comparator "CHALL_DATE" d m1 m3 = Fin 1 /\
      comparator "CHALL_DATE" d m3 m1 = Fin 1) /\
  ~ consistent_on (comparator "CHALL_DATE" asc) rows /\
  map id (sort (comparator "CHALL_DATE" asc) rows)
  = [JNum (Fin 4); JNum (Fin 2); JNum (Fin 1); JNum (Fin 3)] /\
  map id (sort_earlier_first (comparator "CHALL_DATE" asc) rows)
  = [JNum (Fin 4); JNum (Fin 2); JNum (Fin 3); JNum (Fin 1)].
Proof.
  cbv zeta.
  assert (H1 : In (Sample.undated 1 "7")
                  (filteredData (handleSort "CHALL_DATE" Sample.dates)))
    by (vm_compute; left; reflexivity).
  split; [exact H1|]. split; [vm_compute; right; right; left; reflexivity|].
  split; [intros d; split; apply comparator_missing_left; reflexivity|].
  split.
  - intros (Hrefl & _ & _). destruct (Hrefl _ H1) as [_ Hgt].
    rewrite comparator_missing_left in Hgt by reflexivity. discriminate Hgt.
  - split; vm_compute; reflexivity.
Qed.

Lemma pages_partition_witness :
  In (itemsPerPage Sample.long) ITEMS_PER_PAGE_OPTIONS /\
  concat (map (fun p => paginatedData (setCurrentPage p Sample.long))
              (pages (totalPages Sample.long)))
  = displayData Sample.long.
Proof.
  split; [simpl; auto|].
  apply (pages_partition Sample.long). simpl; auto.
Defined.

Lemma duplicates_prepended_witness :
  selectedRows Sample.ticked <> [] /\
  exists duplicates : list object,
    data (handleDuplicateSelected Sample.now Sample.random Sample.ticked)
    = duplicates ++ data Sample.ticked /\
    length duplicates = 1%nat.
Proof.
  split; [discriminate|].
  destruct (duplicates_prepended Sample.now Sample.random Sample.ticked)
    as [duplicates [Hdata [Hlen _]]]; [discriminate|].
  exists duplicates. split; [exact Hdata | exact Hlen].
Defined.

Lemma duplicate_then_delete_witness :
  selectedRows Sample.ticked <> [] /\
  (forall (i : nat) (row : object),
      (i < length (filter (fun r => has (selectedRows Sample.ticked) (id r))
                          (data Sample.ticked)))%nat ->
      In row (data Sample.ticked) ->
      same_value_zero (id row) (JNum (double_add (Sample.now i) (Sample.random i)))
      = false) /\
  let st1 := handleDuplicateSelected Sample.now Sample.random Sample.ticked in
  let copies := firstn (length (data st1) - length (data Sample.ticked)) (data st1) in
  data (handleDeleteSelected true (setSelectedRows (new_Set (map id copies)) st1))
  = data Sample.ticked.
Proof.
  assert (Hfresh : forall (i : nat) (row : object),
             (i < length (filter (fun r => has (selectedRows Sample.ticked) (id r))
                                 (data Sample.ticked)))%nat ->
             In row (data Sample.ticked) ->
             same_value_zero (id row)
               (JNum (double_add (Sample.now i) (Sample.random i))) = false).
  { intros i row Hi Hrow. change (i < 1)%nat in Hi.
    assert (i = 0)%nat as -> by lia.
    simpl in Hrow. destruct Hrow as [<- | [<- | [<- | []]]]; reflexivity. }
  split; [discriminate|]. split; [exact Hfresh|].
  apply (duplicate_then_delete Sample.now Sample.random Sample.ticked);
    [discriminate | exact Hfresh].
Defined.

(** A sheet row without a [Date] cell gets no empty string for its date:
    the property is [undefined]. *)
Lemma missing_date_is_undefined :
  ~ In "Date" (keys Sample.item) /\
  get (transformRow (Sample.now 0) 0 Sample.item) "CHALL_DATE" = JUndefined /\
  get (transformRow (Sample.now 0) 0 Sample.item) "CHALL_DATE" <> JStr "".
Proof.
  split; [simpl; intuition discriminate|]. split; [reflexivity | discriminate].
Qed.

Lemma empty_string_sorts_as_zero_witness :
  StringToNumber "" = Fin 0 /\
  StringToNumber "5" = Fin 5 /\
  sortedData (handleSort "CHAN_AMT"
                (mount ["CHAN_AMT"]
                   [ [("id", JNum (Fin 1)); ("CHAN_AMT", JStr "5")];
                     [("id", JNum (Fin 2)); ("CHAN_AMT", JStr "")] ]))
  = [ [("id", JNum (Fin 2)); ("CHAN_AMT", JStr "")];
      [("id", JNum (Fin 1)); ("CHAN_AMT", JStr "5")] ].
Proof.
  split; [reflexivity|]. split; [reflexivity|].
  apply (@empty_string_sorts_as_zero ascii_host); reflexivity.
Defined.

(* ================================================================== *)
(** ** The selection set *)
(* ================================================================== *)

Lemma same_value_zero_refl_of (v x : jsval) :
  same_value_zero v x = true -> same_value_zero x x = true.
Proof.
  intros H. apply same_value_zero_trans with v; [|exact H].
  now rewrite same_value_zero_sym.
Qed.

Lemma has_same_value (s : idset) (v x : jsval) :
  same_value_zero v x = true -> has s v = has s x.
Proof.
  intros H. unfold has. induction s as [|y s IH]; simpl; [reflexivity|].
  rewrite IH. f_equal.
  destruct (same_value_zero v y) eqn:Hvy, (same_value_zero x y) eqn:Hxy;
    try reflexivity.
  - rewrite same_value_zero_sym in H.
    now rewrite (same_value_zero_trans x v y H Hvy) in Hxy.
  - now rewrite (same_value_zero_trans v x y H Hxy) in Hvy.
Qed.

Lemma has_delete (s : idset) (x v : jsval) :
  has (delete s x) v = has s v && negb (same_value_zero v x).
Proof.
  unfold has, delete. induction s as [|y s IH]; simpl; [reflexivity|].
  destruct (same_value_zero x y) eqn:Hxy; simpl; rewrite IH.
  - destruct (same_value_zero v y) eqn:Hvy; simpl; [|reflexivity].
    rewrite same_value_zero_sym in Hxy.
    rewrite (same_value_zero_trans v y x Hvy Hxy). simpl.
    now rewrite andb_false_r.
  - destruct (same_value_zero v y) eqn:Hvy; simpl; [|reflexivity].
    destruct (same_value_zero v x) eqn:Hvx; simpl; [|reflexivity].
    rewrite same_value_zero_sym in Hvx.
    now rewrite (same_value_zero_trans x v y Hvx Hvy) in Hxy.
Qed.

(** X1: ticking a row's checkbox flips whether its id is selected and
    leaves every other id as it was.  The id is a primitive value (equal
    to itself as [Set.has] compares). *)
Theorem handleSelectRow_flips (rowId : jsval) (st : State) :
  same_value_zero rowId rowId = true ->
  has (selectedRows (handleSelectRow rowId st)) rowId
  = negb (has (selectedRows st) rowId) /\
  (forall v : jsval,
      same_value_zero v rowId = false ->
      has (selectedRows (handleSelectRow rowId st)) v = has (selectedRows st) v).
Proof.
  intros Hrefl. unfold handleSelectRow.
  change (selectedRows (setSelectedRows ?s _)) with s.
  destruct (has (selectedRows st) rowId) eqn:Hin; split.
  - rewrite has_delete, Hrefl. now rewrite andb_false_r.
  - intros v Hv. rewrite has_delete, Hv. now rewrite andb_true_r.
  - rewrite has_add, Hrefl. now rewrite orb_true_r.
  - intros v Hv. rewrite has_add, Hv. now rewrite orb_false_r.
Qed.

(** X2: ticking the same checkbox twice gives back the selection: every
    id is selected afterwards exactly if it was before. *)
Theorem handleSelectRow_twice (rowId v : jsval) (st : State) :
  has (selectedRows (handleSelectRow rowId (handleSelectRow rowId st))) v
  = has (selectedRows st) v.
Proof.
  unfold handleSelectRow.
  change (selectedRows (setSelectedRows ?s _)) with s.
  set (s := selectedRows st).
  assert (Hv : same_value_zero v rowId = true ->
               same_value_zero rowId rowId = true /\ has s v = has s rowId).
  { intros H. split; [now apply same_value_zero_refl_of with v|].
    now apply has_same_value. }
  destruct (has s rowId) eqn:Hin; cbn [selectedRows setSelectedRows].
  - assert (Hrefl : same_value_zero rowId rowId = true).
    { unfold has in Hin. apply existsb_exists in Hin. destruct Hin as [y [_ Hy]].
      apply same_value_zero_refl_of with y. now rewrite same_value_zero_sym. }
    assert (H1 : has (delete s rowId) rowId = false)
      by (now rewrite has_delete, Hin, Hrefl).
    rewrite H1, has_add, has_delete.
    destruct (same_value_zero v rowId) eqn:E.
    + destruct (Hv eq_refl) as [_ ->]. now rewrite orb_true_r.
    + now rewrite andb_true_r, orb_false_r.
  - assert (H1 : has (add s rowId) rowId = same_value_zero rowId rowId)
      by (now rewrite has_add, Hin).
    rewrite H1. destruct (same_value_zero rowId rowId) eqn:Hrefl; cbv iota.
    + rewrite has_delete, has_add.
      destruct (same_value_zero v rowId) eqn:E.
      * destruct (Hv eq_refl) as [_ ->]. now rewrite andb_false_r.
      * now rewrite andb_true_r, orb_false_r.
    + rewrite !has_add.
      destruct (same_value_zero v rowId) eqn:E.
      * destruct (Hv eq_refl) as [Habs _]. discriminate.
      * now rewrite !orb_false_r.
Qed.

Section SelectAllFacts.
Context {host : Host}.

Lemma paginatedData_setSelectedRows (s : idset) (st : State) :
  paginatedData (setSelectedRows s st) = paginatedData st.
Proof. reflexivity. Qed.

(** X3: select-all selects the ids of the rows on the current page and no
    other id; the header checkbox is then ticked exactly if the page has
    rows; deselect-all empties the selection and unticks it.  The ids on
    the page are primitive values. *)
Theorem handleSelectAll_page (st : State) :
  (forall row, In row (paginatedData st) -> same_value_zero (id row) (id row) = true) ->
  (forall v : jsval,
      has (selectedRows (handleSelectAll true st)) v = true <->
      exists row, In row (paginatedData st) /\ same_value_zero v (id row) = true) /\
  isAllSelected (handleSelectAll true st) = (0 <? length (paginatedData st))%nat /\
  selectedRows (handleSelectAll false st) = [] /\
  isAllSelected (handleSelectAll false st) = false.
Proof.
  intros Hprim.
  assert (Hhas : forall v, has (selectedRows (handleSelectAll true st)) v = true <->
             exists row, In row (paginatedData st) /\ same_value_zero v (id row) = true).
  { intros v. unfold handleSelectAll.
    change (selectedRows (setSelectedRows ?s _)) with s.
    rewrite has_new_Set, existsb_exists. split.
    - intros [x [Hx Hs]]. apply in_map_iff in Hx. destruct Hx as [row [<- Hrow]].
      now exists row.
    - intros [row [Hrow Hs]]. exists (id row). split; [now apply in_map | exact Hs]. }
  split; [exact Hhas|]. split; [|split].
  - unfold isAllSelected.
    replace (paginatedData (handleSelectAll true st)) with (paginatedData st)
      by (unfold handleSelectAll; now rewrite paginatedData_setSelectedRows).
    destruct (paginatedData st) as [|r0 page] eqn:Hpage; [reflexivity|].
    cbn [length Nat.ltb Nat.leb andb]. apply forallb_forall. intros row Hrow.
    apply Hhas. exists row. split; [exact Hrow|]. now apply Hprim.
  - reflexivity.
  - unfold isAllSelected.
    replace (paginatedData (handleSelectAll false st)) with (paginatedData st)
      by (unfold handleSelectAll; now rewrite paginatedData_setSelectedRows).
    change (selectedRows (handleSelectAll false st)) with (@nil jsval).
    destruct (paginatedData st); reflexivity.
Qed.

End SelectAllFacts.

(* ================================================================== *)
(** ** Navigation between pages *)
(* ================================================================== *)

Lemma In_pages (p n : Z) : (1 <= p <= n)%Z -> In p (pages n).
Proof.
  intros Hp. unfold pages. apply in_map_iff. exists (Z.to_nat p).
  split; [lia|]. apply in_seq. lia.
Qed.

Lemma In_firstn_inv {A : Type} (x : A) (n : nat) (l : list A) :
  In x (firstn n l) -> In x l.
Proof.
  intros H. rewrite <- (firstn_skipn n l). apply in_or_app. now left.
Qed.

Lemma In_skipn_inv {A : Type} (x : A) (n : nat) (l : list A) :
  In x (skipn n l) -> In x l.
Proof.
  intros H. rewrite <- (firstn_skipn n l). apply in_or_app. now right.
Qed.

Lemma In_slice {A : Type} (x : A) (l : list A) (start stop : Z) :
  In x (slice l start stop) -> In x l.
Proof. unfold slice. intros H. eapply In_skipn_inv, In_firstn_inv, H. Qed.

Lemma NoDup_slice {A : Type} (l : list A) (start stop : Z) :
  NoDup l -> NoDup (slice l start stop).
Proof.
  intros H. unfold slice.
  set (k := Z.to_nat _). set (n := Z.to_nat _).
  assert (Hs : NoDup (skipn n l)).
  { rewrite <- (firstn_skipn n l) in H. now apply NoDup_app_remove_l in H. }
  rewrite <- (firstn_skipn k (skipn n l)) in Hs. now apply NoDup_app_remove_r in Hs.
Qed.

Section NavigationFacts.
Context {host : Host}.

Lemma totalPages_positive (st : State) :
  (0 < itemsPerPage st)%Z -> displayData st <> [] -> (1 <= totalPages st)%Z.
Proof.
  intros Hpos Hne.
  destruct (pages_partition_pos st Hpos) as [Hceil _]. cbv zeta in Hceil.
  assert (0 < length (displayData st))%nat
    by (destruct (displayData st); [contradiction | simpl; lia]).
  destruct (Z.le_gt_cases 1 (totalPages st)) as [Hle | Hgt]; [exact Hle|].
  exfalso.
  assert (totalPages st * itemsPerPage st <= 0 * itemsPerPage st)%Z
    by (apply Z.mul_le_mono_nonneg_r; lia).
  lia.
Qed.

(** X4: whatever page is asked for, [handlePageChange] goes to a page
    from 1 on, to the asked page itself when it exists, and, while there
    are rows to display, to an existing page whose window is not empty;
    with no rows it goes to page 1.  The page size is positive. *)
Theorem handlePageChange_valid (page : Z) (st : State) :
  (0 < itemsPerPage st)%Z ->
  let st' := handlePageChange page st in
  (1 <= currentPage st')%Z /\
  ((1 <= page <= totalPages st)%Z -> currentPage st' = page) /\
  (displayData st <> [] ->
   (currentPage st' <= totalPages st)%Z /\ paginatedData st' <> []) /\
  (displayData st = [] -> currentPage st' = 1%Z) /\
  data st' = data st.
Proof.
  intros Hpos st'. unfold st', handlePageChange.
  change (currentPage (setCurrentPage ?p _)) with p.
  split; [lia|]. split; [lia|]. split; [|split; [|reflexivity]].
  - intros Hne. pose proof (totalPages_positive st Hpos Hne) as Htp.
    split; [lia|].
    destruct (pages_partition_pos st Hpos) as (_ & _ & _ & Hpages).
    apply Hpages, In_pages. lia.
  - intros Hnil.
    destruct (pages_partition_pos st Hpos) as (_ & Hzero & _).
    rewrite (Hzero Hnil). lia.
Qed.


(** X6: the view never makes up a row and never repeats one: every row
    of the page window is a row of the collection, the displayed sequence
    is no longer than the collection, and distinct rows stay distinct
    through filter, sort and pagination. *)
Theorem view_rows_from_data (st : State) :
  (forall row, In row (paginatedData st) -> In row (data st)) /\
  (length (displayData st) <= length (data st))%nat /\
  (NoDup (data st) -> NoDup (displayData st) /\ NoDup (paginatedData st)).
Proof.
  assert (Hf : forall row, In row (filteredData st) -> In row (data st)).
  { intros row. unfold filteredData.
    destruct (negb (ToBoolean (JStr (searchTerm st)))); [trivial|].
    intros H. now apply filter_In in H. }
  assert (Hflen : (length (filteredData st) <= length (data st))%nat).
  { unfold filteredData.
    destruct (negb (ToBoolean (JStr (searchTerm st)))); [lia | apply filter_length_le]. }
  assert (Hfnd : NoDup (data st) -> NoDup (filteredData st)).
  { unfold filteredData.
    destruct (negb (ToBoolean (JStr (searchTerm st)))); [trivial | apply NoDup_filter]. }
  assert (Hperm : Permutation (displayData st) (filteredData st)).
  { unfold displayData, sortedData.
    destruct (key (sortConfig st)) as [k|]; [|reflexivity].
    destruct (negb (ToBoolean (JStr k))); [reflexivity | apply sort_Permutation]. }
  split; [|split].
  - intros row Hrow. apply Hf. eapply Permutation_in; [exact Hperm|].
    unfold paginatedData in Hrow. eapply In_slice, Hrow.
  - rewrite (Permutation_length Hperm). exact Hflen.
  - intros Hnd.
    assert (Hd : NoDup (displayData st)).
    { eapply Permutation_NoDup; [symmetry; exact Hperm | now apply Hfnd]. }
    split; [exact Hd | now apply NoDup_slice].
Qed.

End NavigationFacts.

(* ================================================================== *)
(** ** More on search and sort *)
(* ================================================================== *)

Lemma occurs_in_trans (a b c : string) :
  occurs_in a b -> occurs_in b c -> occurs_in a c.
Proof.
  intros [p1 [q1 ->]] [p2 [q2 ->]].
  exists (p2 ++ p1)%string, (q1 ++ q2)%string.
  induction p2 as [|ch p2 IH]; simpl.
  - induction p1 as [|ch p1 IH1]; simpl.
    + induction a as [|ch a IHa]; simpl; [reflexivity | now rewrite IHa].
    + now rewrite IH1.
  - now rewrite IH.
Qed.

Lemma filter_map_commute {A B : Type} (g : A -> B) (P : B -> bool) (l : list A) :
  filter P (map g l) = map g (filter (fun x => P (g x)) l).
Proof.
  induction l as [|x l IH]; simpl; [reflexivity|].
  destruct (P (g x)); simpl; now rewrite IH.
Qed.

(** Sorting commutes with a change of the elements that the comparator
    does not see. *)
Section SortMap.
Context {A B : Type}.
Variable g : A -> B.
Variable cmpA : A -> A -> number.
Variable cmpB : B -> B -> number.
Hypothesis blind : forall x y, cmpB (g x) (g y) = cmpA x y.

Lemma search_map (pivot : A) (sorted : list A) (fuel left right : nat) :
  search cmpB (g pivot) (map g sorted) fuel left right
  = search cmpA pivot sorted fuel left right.
Proof.
  revert left right; induction fuel as [|fuel IH]; intros left right; cbn [search].
  - reflexivity.
  - destruct (left <? right)%nat; [|reflexivity].
    rewrite nth_error_map.
    destruct (nth_error sorted (left + (right - left) / 2)) as [probe|];
      [|reflexivity].
    cbn [option_map]. rewrite blind, !IH. reflexivity.
Qed.

Lemma place_map (sorted : list A) (pivot : A) :
  place cmpB (map g sorted) (g pivot) = map g (place cmpA sorted pivot).
Proof.
  unfold place. rewrite length_map, search_map, map_app, firstn_map.
  cbn [map]. now rewrite skipn_map.
Qed.

Lemma sort_map (l : list A) : sort cmpB (map g l) = map g (sort cmpA l).
Proof.
  unfold sort. change (@nil B) with (map g []). generalize (@nil A).
  induction l as [|x l IH]; intros acc; simpl; [reflexivity|].
  now rewrite place_map, IH.
Qed.

End SortMap.

(** An array in which no element is before an earlier one comes out of
    [sort] as it went in. *)
Lemma sort_ordered_unchanged {A : Type} (comparefn : A -> A -> number) (l : list A) :
  ForallOrdPairs (fun x y => number_lt0 (comparefn y x) = false) l ->
  sort comparefn l = l.
Proof.
  intros Hord. unfold sort.
  enough (H : forall acc,
             ForallOrdPairs (fun x y => number_lt0 (comparefn y x) = false) (acc ++ l) ->
             fold_left (place comparefn) l acc = acc ++ l)
    by (apply (H [] Hord)).
  clear Hord. induction l as [|x l IH]; intros acc Hord; simpl.
  - now rewrite app_nil_r.
  - assert (Hplace : place comparefn acc x = acc ++ [x]).
    { unfold place. rewrite search_right; try lia.
      - now rewrite firstn_all, skipn_all.
      - intros probe Hprobe. clear IH.
        induction acc as [|a acc IHacc]; [contradiction|].
        simpl in Hord. inversion Hord as [|? ? Hall Hrest]; subst.
        destruct Hprobe as [-> | Hin].
        + rewrite Forall_forall in Hall. apply Hall, in_elt.
        + now apply IHacc. }
    rewrite Hplace, IH; rewrite <- app_assoc; [reflexivity | exact Hord].
Qed.

(** Where every two elements of the array get opposite answers in the
    two orders, it makes no difference which of them the engine hands to
    the comparison function first. *)
Section SortEngines.
Context {A : Type}.
Variable comparefn : A -> A -> number.

Lemma search_earlier_first_agrees (pivot : A) (sorted : list A)
      (fuel left right : nat) :
  (forall probe, In probe sorted ->
     number_lt0 (comparefn pivot probe) = number_gt0 (comparefn probe pivot)) ->
  search_earlier_first comparefn pivot sorted fuel left right
  = search comparefn pivot sorted fuel left right.
Proof.
  intros Hflip. revert left right; induction fuel as [|fuel IH]; intros left right;
    cbn [search search_earlier_first]; [reflexivity|].
  destruct (left <? right)%nat; [|reflexivity].
  destruct (nth_error sorted (left + (right - left) / 2)) as [probe|] eqn:Hnth;
    [|reflexivity].
  rewrite <- (Hflip probe (nth_error_In _ _ Hnth)).
  destruct (number_lt0 (comparefn pivot probe)); apply IH.
Qed.

Lemma sort_earlier_first_agrees (l : list A) :
  (forall a b, In a l -> In b l ->
     number_lt0 (comparefn a b) = number_gt0 (comparefn b a)) ->
  sort_earlier_first comparefn l = sort comparefn l.
Proof.
  intros Hflip. unfold sort_earlier_first, sort.
  enough (H : forall rest acc,
             incl rest l -> incl acc l ->
             fold_left (place_earlier_first comparefn) rest acc
             = fold_left (place comparefn) rest acc)
    by (apply H; [apply incl_refl | intros x []]).
  induction rest as [|x rest IH]; intros acc Hrest Hacc; simpl; [reflexivity|].
  assert (Hx : In x l) by (apply Hrest; now left).
  assert (Hplace : place_earlier_first comparefn acc x = place comparefn acc x).
  { unfold place_earlier_first, place.
    rewrite search_earlier_first_agrees; [reflexivity|].
    intros probe Hprobe. apply Hflip; [exact Hx | now apply Hacc]. }
  rewrite Hplace. apply IH.
  - intros y Hy. apply Hrest. now right.
  - intros y Hy.
    apply (Permutation_in _ (place_Permutation comparefn acc x)) in Hy.
    destruct Hy as [<- | Hy]; [exact Hx | now apply Hacc].
Qed.

End SortEngines.

Section SearchSortFacts.
Context {host : Host}.

Lemma filteredData_after_search (term : string) (st : State) (row : object) :
  term <> "" ->
  (In row (filteredData (onSearchTermChange term st)) <->
   In row (data st) /\
   exists header : string,
     In header (headers st) /\
     occurs_in (toLowerCase term) (toLowerCase (cellText row header))).
Proof.
  intros Hterm. unfold filteredData.
  cbn [searchTerm onSearchTermChange setSearchTerm setCurrentPage setSelectedRows
       data headers].
  assert (Hb : ToBoolean (JStr term) = true).
  { simpl. destruct (String.eqb_spec term ""); [contradiction | reflexivity]. }
  rewrite Hb. cbn [negb]. rewrite filter_In, existsb_exists.
  split; intros [Hd [header [Hh Hm]]]; (split; [exact Hd|]); exists header;
    (split; [exact Hh|]); now apply includes_iff.
Qed.

(** X7: a search term that contains another one, both lowercased, keeps
    no row the other drops: typing on can only narrow the result. *)
Theorem search_narrows (shorter longer : string) (st : State) (row : object) :
  longer <> "" ->
  occurs_in (toLowerCase shorter) (toLowerCase longer) ->
  In row (filteredData (onSearchTermChange longer st)) ->
  In row (filteredData (onSearchTermChange shorter st)).
Proof.
  intros Hlonger Hocc Hin.
  apply (filteredData_after_search longer st row Hlonger) in Hin.
  destruct Hin as [Hdata [header [Hh Hocc']]].
  destruct (String.eqb_spec shorter "") as [-> | Hshorter].
  - exact Hdata.
  - apply (filteredData_after_search shorter st row Hshorter).
    split; [exact Hdata|]. exists header. split; [exact Hh|].
    now apply occurs_in_trans with (toLowerCase longer).
Qed.

End SearchSortFacts.

Section SortFrameFacts.
Context {host : Host}.

Lemma cellText_reidentify (f : object -> jsval) (row : object) (header : string) :
  header <> "id" -> cellText (reidentify f row) header = cellText row header.
Proof. intros H. unfold cellText, reidentify. now rewrite get_set_other. Qed.

Lemma comparator_reidentify (f : object -> jsval) (k : string) (d : direction)
      (a b : object) :
  k <> "id" ->
  comparator k d (reidentify f a) (reidentify f b) = comparator k d a b.
Proof. intros H. unfold comparator, reidentify. now rewrite !get_set_other. Qed.

Lemma filteredData_reidentify (f : object -> jsval) (st : State) :
  ~ In "id" (headers st) ->
  filteredData (onDataChange (map (reidentify f) (data st)) st)
  = map (reidentify f) (filteredData st).
Proof.
  intros Hid. unfold filteredData.
  cbn [searchTerm headers data onDataChange].
  destruct (negb (ToBoolean (JStr (searchTerm st)))); [reflexivity|].
  rewrite filter_map_commute. f_equal. apply filter_ext. intros row.
  induction (headers st) as [|h hs IH]; [reflexivity|].
  cbn [existsb]. rewrite cellText_reidentify.
  - f_equal. apply IH. intros Hin. apply Hid. now right.
  - intros ->. apply Hid. now left.
Qed.

(** X8: the identifier takes no part in search or sort: with no header
    and no sort key named [id], giving the rows other identifiers changes
    the displayed sequence in nothing but those identifiers. *)
Theorem displayData_ignores_id (f : object -> jsval) (st : State) :
  ~ In "id" (headers st) ->
  key (sortConfig st) <> Some "id" ->
  displayData (onDataChange (map (reidentify f) (data st)) st)
  = map (reidentify f) (displayData st).
Proof.
  intros Hid Hkey. unfold displayData, sortedData.
  cbn [sortConfig onDataChange].
  rewrite (filteredData_reidentify f st Hid).
  destruct (key (sortConfig st)) as [k|]; [|reflexivity].
  destruct (negb (ToBoolean (JStr k))); [reflexivity|].
  apply sort_map. intros x y. apply comparator_reidentify. congruence.
Qed.

Lemma ForallOrdPairs_weaken {A : Type} (R R' : A -> A -> Prop) (l : list A) :
  (forall a b, In a l -> In b l -> R a b -> R' a b) ->
  ForallOrdPairs R l -> ForallOrdPairs R' l.
Proof.
  intros Himp Hord. induction Hord as [|a l Hall Hord IH]; [constructor|].
  constructor.
  - rewrite Forall_forall in *. intros b Hb.
    apply Himp; [now left | now right | now apply Hall].
  - apply IH. intros x y Hx Hy. apply Himp; now right.
Qed.

(** X9: when the comparator is a consistent comparison function for the
    filtered rows and they already stand in its order, no row being
    after a later one, sorting leaves them as they are: rows that tie
    keep their places, whichever of two rows the engine hands to the
    comparator first. *)
Theorem sortedData_keeps_ordered (st : State) (k : string) (d : direction) :
  sortConfig st = {| key := Some k; dir := d |} ->
  k <> "" ->
  consistent_on (comparator k d) (filteredData st) ->
  ForallOrdPairs (fun a b => number_gt0 (comparator k d a b) = false)
                 (filteredData st) ->
  sortedData st = filteredData st /\
  sort_earlier_first (comparator k d) (filteredData st) = filteredData st.
Proof.
  intros Hcfg Hk (_ & Hflip & _) Hord.
  assert (Hsort : sort (comparator k d) (filteredData st) = filteredData st).
  { apply sort_ordered_unchanged.
    apply (ForallOrdPairs_weaken
             (fun a b => number_gt0 (comparator k d a b) = false)); [|exact Hord].
    intros a b Ha Hb Hab. now rewrite (Hflip b a Hb Ha). }
  split.
  - now rewrite (sortedData_sorts st k d Hcfg Hk).
  - now rewrite (sort_earlier_first_agrees _ _ Hflip).
Qed.

Lemma before_numbers (k : string) (x y : object) (vx vy : Q) :
  get x k = JNum (Fin vx) -> get y k = JNum (Fin vy) ->
  (before (comparator k asc) x y <-> (vx < vy)%Q).
Proof.
  intros Hx Hy. unfold before, comparator. rewrite Hx, Hy. simpl.
  rewrite negb_true_iff. split.
  - intros H. destruct (Qlt_le_dec vx vy) as [Hlt | Hle]; [exact Hlt|].
    assert (Hz : (0 <= vx - vy)%Q) by lra.
    apply Qle_bool_iff in Hz. congruence.
  - intros Hlt. destruct (Qle_bool 0 (vx - vy)) eqn:E; [|reflexivity].
    apply Qle_bool_iff in E. lra.
Qed.

(** X10: on a column that holds a finite number in every filtered row,
    no two of them equal, the ascending sort lists the rows by
    increasing value and the next click on the column, which sorts
    descending, lists them in the reverse order. *)
Theorem numeric_column_sorted (st : State) (k : string) (value : object -> Q) :
  sortConfig st = {| key := Some k; dir := asc |} ->
  k <> "" ->
  (forall row, In row (filteredData st) -> get row k = JNum (Fin (value row))) ->
  (forall a b, In a (filteredData st) -> In b (filteredData st) -> a <> b ->
               ~ (value a == value b)%Q) ->
  NoDup (filteredData st) ->
  StronglySorted (fun a b => (value a < value b)%Q) (sortedData st) /\
  sortedData (handleSort k st) = rev (sortedData st).
Proof.
  intros Hcfg Hk Hnum Hdistinct Hnd.
  assert (Hbefore : forall x y, In x (filteredData st) -> In y (filteredData st) ->
             (before (comparator k asc) x y <-> (value x < value y)%Q)).
  { intros x y Hx Hy. apply before_numbers; now apply Hnum. }
  assert (Hso : strictly_ordered k (filteredData st)).
  { unfold strictly_ordered. split; [exact Hnd|]. split; [|split; [|split]].
    - intros x Hx. unfold missing. now rewrite (Hnum x Hx).
    - intros x y Hx Hy Hne. rewrite !Hbefore by assumption.
      pose proof (Hdistinct x y Hx Hy Hne) as Hd.
      destruct (Q_dec (value x) (value y)) as [[H | H] | H]; [now left | now right |].
      contradiction.
    - intros x y Hx Hy. rewrite !Hbefore by assumption. intros H1 H2. lra.
    - intros x y z Hx Hy Hz. rewrite !Hbefore by assumption. intros H1 H2. lra. }
  pose proof (handleSort_same_column k st Hcfg) as Hdesc.
  rewrite (sortedData_sorts (handleSort k st) k desc Hdesc Hk).
  rewrite (sortedData_sorts st k asc Hcfg Hk).
  change (filteredData (handleSort k st)) with (filteredData st).
  split; [|now apply sorted_desc_is_rev_asc].
  destruct Hso as (_ & _ & Htotal & _ & Htrans).
  apply (StronglySorted_weaken (before (comparator k asc))).
  - intros x y Hx Hy. apply Hbefore; eapply Permutation_in;
      try (apply sort_Permutation); eassumption.
  - apply (sort_sorted (comparator k asc) (filteredData st) Htotal Htrans);
      [exact Hnd | apply incl_refl].
Qed.

(** X11: clicking a header that is not the sort key sorts its column
    ascending, whatever the sort was, and every further click on it flips
    the direction: after an odd number of clicks it is ascending, after
    an even number descending; the rows are not touched. *)
Theorem handleSort_alternates (header : string) (st : State) (n : nat) :
  key (sortConfig st) <> Some header ->
  sortConfig (Nat.iter (S n) (handleSort header) st)
  = {| key := Some header; dir := if Nat.even n then asc else desc |} /\
  data (Nat.iter (S n) (handleSort header) st) = data st.
Proof.
  intros Hnew. induction n as [|n [IHc IHd]].
  - split; [now apply handleSort_new_column | reflexivity].
  - split; [|exact IHd].
    change (Nat.iter (S (S n)) (handleSort header) st)
      with (handleSort header (Nat.iter (S n) (handleSort header) st)).
    rewrite Nat.even_succ, <- Nat.negb_even.
    destruct (Nat.even n); cbn [negb].
    + now apply handleSort_same_column.
    + now apply handleSort_back_to_asc.
Qed.

End SortFrameFacts.

(* ================================================================== *)
(** ** More on the mutation operations *)
(* ================================================================== *)

Lemma typed_get_other (changes : list (string * string)) (row : object) (k : string) :
  ~ In k (map fst changes) -> get (typed changes row) k = get row k.
Proof.
  unfold typed. revert row; induction changes as [|[f v] changes IH];
    intros row Hk; simpl; [reflexivity|].
  rewrite IH by (intros Hin; apply Hk; now right).
  unfold handleChange. apply get_set_other. intros ->. apply Hk. now left.
Qed.

Section MoreMutationFacts.
Context {host : Host}.

(** X12: deleting a row right after adding it gives back the collection,
    when the new row's id is a primitive value that no other row has;
    deleting an id that no row has changes nothing, and neither does a
    deletion the user does not confirm. *)
Theorem add_then_delete_row (now : number) (today : string) (row : object) (st : State) :
  strict_equals (id row) (id row) = true ->
  (forall r, In r (data st) -> strict_equals (id r) (id row) = false) ->
  data (handleDeleteRow (id row) true (handleSaveRow row (handleAddRow now today st)))
  = data st /\
  data (handleDeleteRow (id row) true st) = data st /\
  (forall rowId, handleDeleteRow rowId false st = st).
Proof.
  intros Hrefl Hfresh.
  assert (Hkeep : filter (fun r => negb (strict_equals (id r) (id row))) (data st)
                  = data st).
  { apply filter_all. intros r Hr. now rewrite (Hfresh r Hr). }
  split; [|split; [exact Hkeep | reflexivity]].
  change (data (handleDeleteRow (id row) true
                  (handleSaveRow row (handleAddRow now today st))))
    with (filter (fun r => negb (strict_equals (id r) (id row))) (row :: data st)).
  cbn [filter]. rewrite Hrefl. exact Hkeep.
Qed.

(** X13: select-all followed by a confirmed delete removes from the
    collection exactly the rows whose id is on the current page: every
    row of the page is gone, any other row stays, and the selection is
    empty afterwards.  The ids on the page are primitive values. *)
Theorem select_all_then_delete (st : State) :
  (forall row, In row (paginatedData st) -> same_value_zero (id row) (id row) = true) ->
  let st' := handleDeleteSelected true (handleSelectAll true st) in
  selectedRows st' = [] /\
  (forall row,
      In row (data st') <->
      In row (data st) /\
      forall p, In p (paginatedData st) -> same_value_zero (id row) (id p) = false) /\
  (forall p, In p (paginatedData st) -> ~ In p (data st')).
Proof.
  intros Hprim st'.
  set (sel := new_Set (map id (paginatedData st))).
  assert (Hhas : forall row,
             has sel (id row) = false <->
             forall p, In p (paginatedData st) -> same_value_zero (id row) (id p) = false).
  { intros row. unfold sel. rewrite has_new_Set. split.
    - intros Hex p Hp. destruct (same_value_zero (id row) (id p)) eqn:E; [|reflexivity].
      rewrite <- Hex. symmetry. apply existsb_exists. exists (id p).
      split; [now apply in_map | exact E].
    - intros Hall. apply not_true_is_false. intros Hex.
      apply existsb_exists in Hex. destruct Hex as [v [Hv Hs]].
      apply in_map_iff in Hv. destruct Hv as [p [<- Hp]].
      rewrite (Hall p Hp) in Hs. discriminate. }
  assert (Hdata : selectedRows st' = [] /\
                  forall row, In row (data st') <->
                              In row (data st) /\ has sel (id row) = false).
  { unfold st', handleDeleteSelected, handleSelectAll, size.
    cbn [selectedRows setSelectedRows data]. fold sel.
    destruct sel as [|v0 vs] eqn:Hsel.
    - cbn [length Nat.eqb selectedRows setSelectedRows data].
      split; [reflexivity|]. intros row. unfold has. simpl. tauto.
    - cbn [length Nat.eqb selectedRows setSelectedRows data onDataChange].
      split; [reflexivity|]. intros row. rewrite filter_In, negb_true_iff. tauto. }
  destruct Hdata as [Hnil Hiff]. split; [exact Hnil|]. split.
  - intros row. rewrite Hiff, Hhas. tauto.
  - intros p Hp Hin. apply Hiff in Hin. destruct Hin as [_ Hno].
    pose proof (proj1 (Hhas p) Hno p Hp) as Habs.
    rewrite (Hprim p Hp) in Habs. discriminate.
Qed.

(** X14: what is typed in the modal never reaches the identifier: after
    any changes to fields other than [id] the form has the row's id, the
    fields not typed in keep the row's values, a field holds what was
    typed last, and submitting puts the form where rows with that id
    stand, other rows staying as they are. *)
Theorem modal_edit_keeps_id (changes : list (string * string)) (row : object) (st : State) :
  ~ In "id" (map fst changes) ->
  let formData := typed changes row in
  id formData = id row /\
  (forall k, ~ In k (map fst changes) -> get formData k = get row k) /\
  (forall field value,
      get (typed (changes ++ [(field, value)]) row) field = JStr value) /\
  (forall (i : nat) (r0 : object),
      nth_error (data st) i = Some r0 ->
      nth_error (data (handleSubmit formData (handleEditRow row st))) i
      = Some (if strict_equals (id r0) (id row) then formData else r0)).
Proof.
  intros Hid formData.
  assert (Hsame : id formData = id row) by (now apply typed_get_other).
  split; [exact Hsame|]. split; [|split].
  - intros k Hk. now apply typed_get_other.
  - intros field value. unfold typed. rewrite fold_left_app. simpl.
    apply get_set_same.
  - intros i r0 Hi.
    change (data (handleSubmit formData (handleEditRow row st)))
      with (map (fun r => if strict_equals (id r) (id formData) then formData else r)
                (data st)).
    rewrite nth_error_map, Hi, Hsame. reflexivity.
Qed.

End MoreMutationFacts.

(* ================================================================== *)
(** ** More on ingestion *)
(* ================================================================== *)

Section MoreIngestionFacts.
Context {host : Host}.

Lemma transformedData_nth_error (now : nat -> number) (raw : list object) (i : nat) :
  nth_error (transformedData now raw) i
  = option_map (transformRow (now i) i) (nth_error raw i).
Proof. unfold transformedData. now rewrite mapi_from_nth_error. Qed.

(** X15: the records of one load have pairwise different identifiers,
    when the clock reads finite times that do not go back while the rows
    are transformed. *)
Theorem ingestion_ids_distinct (now : nat -> number) (time : nat -> Q)
        (raw : list object) :
  (forall i, now i = Fin (time i)) ->
  (forall i j, (i <= j)%nat -> (time i <= time j)%Q) ->
  forall (i j : nat) (ri rj : object),
    (i < j)%nat ->
    nth_error (transformedData now raw) i = Some ri ->
    nth_error (transformedData now raw) j = Some rj ->
    strict_equals (id ri) (id rj) = false /\
    same_value_zero (id ri) (id rj) = false.
Proof.
  intros Hfin Hmono i j ri rj Hij Hi Hj.
  rewrite transformedData_nth_error in Hi, Hj.
  destruct (nth_error raw i) as [itemi|]; [|discriminate].
  destruct (nth_error raw j) as [itemj|]; [|discriminate].
  injection Hi as <-. injection Hj as <-.
  unfold id. cbn [transformRow get String.eqb Ascii.eqb Bool.eqb].
  rewrite !Hfin. cbn [number_add same_value_zero strict_equals number_eqb].
  assert (Hne : Qeq_bool (time i + inject_Z (Z.of_nat i))
                         (time j + inject_Z (Z.of_nat j)) = false).
  { apply not_true_is_false. intros H. apply Qeq_bool_iff in H.
    pose proof (Hmono i j ltac:(lia)) as Hle.
    assert (Hlt : (inject_Z (Z.of_nat i) < inject_Z (Z.of_nat j))%Q)
      by (rewrite <- Zlt_Qlt; lia).
    lra. }
  now rewrite Hne.
Qed.

(** X16: a load gives one record per sheet row, every record with the
    same properties in the same order; the headers are the seven target
    columns for a sheet with rows and none for an empty sheet; and a row
    made by Add has those same seven headers. *)
Theorem ingestion_columns (now : nat -> number) (raw : list object) :
  length (transformedData now raw) = length raw /\
  (forall r, In r (transformedData now raw) ->
     keys r = ["id"; "CHALLAN_NO"; "A_BANCD"; "A_BANKL"; "CHALL_DATE";
               "ACCOUNT_CODE"; "CHAN_AMT"; "NOTES"; "_originalData"]) /\
  (raw <> [] ->
   headersOf (transformedData now raw)
   = ["CHALLAN_NO"; "A_BANCD"; "A_BANKL"; "CHALL_DATE";
      "ACCOUNT_CODE"; "CHAN_AMT"; "NOTES"]) /\
  (raw = [] -> headersOf (transformedData now raw) = []) /\
  (forall (n : number) (today : string),
     raw <> [] ->
     headersOf [createNewRow n today] = headersOf (transformedData now raw)).
Proof.
  assert (Hh : raw <> [] ->
               headersOf (transformedData now raw)
               = ["CHALLAN_NO"; "A_BANCD"; "A_BANKL"; "CHALL_DATE";
                  "ACCOUNT_CODE"; "CHAN_AMT"; "NOTES"]).
  { intros Hne. destruct raw as [|item raw]; [contradiction | reflexivity]. }
  split; [apply mapi_from_length|]. split; [|split; [exact Hh | split]].
  - intros r Hr. unfold transformedData in Hr. apply mapi_from_In in Hr.
    destruct Hr as [j [item [_ [_ ->]]]]. reflexivity.
  - intros ->. reflexivity.
  - intros n today Hne. now rewrite (Hh Hne).
Qed.

End MoreIngestionFacts.

(* ================================================================== *)
(** ** The exports *)
(* ================================================================== *)

Lemma string_length_append (a b : string) :
  String.length (a ++ b)%string = (String.length a + String.length b)%nat.
Proof. induction a as [|c a IH]; simpl; [reflexivity | now rewrite IH]. Qed.

Lemma string_app_inv_tail (a b c : string) :
  (a ++ c)%string = (b ++ c)%string -> a = b.
Proof.
  revert b; induction a as [|x a IH]; intros [|y b] H; simpl in H.
  - reflexivity.
  - apply (f_equal String.length) in H. simpl in H.
    rewrite string_length_append in H. lia.
  - apply (f_equal String.length) in H. simpl in H.
    rewrite string_length_append in H. lia.
  - injection H as -> H. f_equal. now apply IH.
Qed.

Lemma double_quotes_inj (a b : string) :
  double_quotes a = double_quotes b -> a = b.
Proof.
  revert b; induction a as [|x a IH]; intros [|y b]; simpl.
  - reflexivity.
  - destruct (Ascii.eqb y quote); discriminate.
  - destruct (Ascii.eqb x quote); discriminate.
  - destruct (Ascii.eqb_spec x quote) as [-> | Hx];
      destruct (Ascii.eqb_spec y quote) as [-> | Hy]; intros H.
    + injection H as H. f_equal. now apply IH.
    + injection H as H _. congruence.
    + injection H as H _. congruence.
    + injection H as -> H. f_equal. now apply IH.
Qed.

Lemma double_quotes_count (s : string) :
  count_quotes (double_quotes s) = (2 * count_quotes s)%nat /\
  String.length (double_quotes s) = (String.length s + count_quotes s)%nat.
Proof.
  induction s as [|c s [IHc IHl]]; simpl; [split; reflexivity|].
  destruct (Ascii.eqb_spec c quote) as [-> | Hc]; simpl.
  - rewrite IHc, IHl. split; lia.
  - destruct (Ascii.eqb_spec c quote); [contradiction|]. rewrite IHc, IHl. split; lia.
Qed.

Lemma startsWith_empty (s : string) : startsWith s "" = true.
Proof. now destruct s. Qed.

Lemma includes_quote_count (s : string) :
  includes s (String quote "") = false -> count_quotes s = 0%nat.
Proof.
  induction s as [|c s IH]; cbn [includes startsWith count_quotes]; [reflexivity|].
  rewrite startsWith_empty, andb_true_r. intros H.
  apply orb_false_iff in H. destruct H as [Hc Hs]. rewrite (IH Hs).
  destruct (Ascii.eqb_spec c quote) as [-> | Hne]; [|reflexivity].
  rewrite Ascii.eqb_refl in Hc. discriminate.
Qed.

Lemma includes_leading_quote (rest : string) :
  includes (String quote rest) (String quote "") = true.
Proof. cbn [includes startsWith]. now rewrite Ascii.eqb_refl, startsWith_empty. Qed.

Lemma Math_max_spread_bounds (x : Z) (l : list Z) :
  (forall y, In y (x :: l) -> (y <= Math_max_spread (x :: l))%Z) /\
  In (Math_max_spread (x :: l)) (x :: l).
Proof.
  unfold Math_max_spread. revert x; induction l as [|z l IH]; intros x.
  - simpl. split; [intros y [<- | []]; lia | now left].
  - cbn [fold_left]. destruct (IH (Z.max x z)) as [Hge Hin]. split.
    + intros y [<- | [<- | Hy]].
      * specialize (Hge (Z.max x z) (or_introl eq_refl)). lia.
      * specialize (Hge (Z.max x z) (or_introl eq_refl)). lia.
      * apply Hge. now right.
    + destruct Hin as [Hm | Hm].
      * rewrite <- Hm. destruct (Z.max_spec x z) as [[_ ->] | [_ ->]];
          [right; now left | now left].
      * right. now right.
Qed.

Lemma digit_is_no_slash (c : ascii) : is_digit c = true -> Ascii.eqb c "/" = false.
Proof.
  intros H. destruct (Ascii.eqb_spec c "/") as [-> | Hne]; [|reflexivity].
  discriminate H.
Qed.

Section ExportFacts.
Context {host : Host}.

(** X17: the CSV writer loses nothing of a text cell: two texts that are
    written the same are the same text. *)
Theorem csvCell_injective (a b : string) :
  csvCell (JStr a) = csvCell (JStr b) -> a = b.
Proof.
  unfold csvCell.
  destruct (includes a "," || includes a (String quote "")) eqn:Ha;
    destruct (includes b "," || includes b (String quote "")) eqn:Hb; intros H.
  - injection H as H. apply string_app_inv_tail in H. now apply double_quotes_inj.
  - injection H as H. subst b. apply orb_false_iff in Hb.
    destruct Hb as [_ Hb]. now rewrite includes_leading_quote in Hb.
  - injection H as H. subst a. apply orb_false_iff in Ha.
    destruct Ha as [_ Ha]. now rewrite includes_leading_quote in Ha.
  - now injection H.
Qed.

(** X18: the CSV writer leaves a text without comma and quote as it is,
    even one with a line feed in it, and such a text holds no quote; any
    other text is put between two quotes with each of its quotes
    doubled, so that the quotes in between are even in number; what is
    not a text is passed on untouched. *)
Theorem csvCell_shape (s : string) :
  (if includes s "," || includes s (String quote "")
   then exists inner : string,
       csvCell (JStr s) = JStr (String quote (inner ++ String quote "")) /\
       count_quotes inner = (2 * count_quotes s)%nat /\
       String.length inner = (String.length s + count_quotes s)%nat
   else csvCell (JStr s) = JStr s /\ count_quotes s = 0%nat) /\
  (forall v, (forall t, v <> JStr t) -> csvCell v = v).
Proof.
  split.
  - unfold csvCell.
    destruct (includes s "," || includes s (String quote "")) eqn:Hs.
    + exists (double_quotes s). split; [reflexivity | apply double_quotes_count].
    + split; [reflexivity|]. apply orb_false_iff in Hs.
      now apply includes_quote_count.
  - intros v Hv. destruct v; try reflexivity. now destruct (Hv s0).
Qed.

(** X19: with no rows nothing is exported; a load is exported as the
    line of the seven column names, in their order and without [id] or
    [_originalData], followed by one line for each record, made of its
    seven cells as the CSV writer writes them. *)
Theorem csv_of_a_load (now : nat -> number) (raw : list object) :
  csvContent [] = None /\
  (raw <> [] ->
   csvContent (transformedData now raw)
   = Some (join (String newline "")
             (JStr "CHALLAN_NO,A_BANCD,A_BANKL,CHALL_DATE,ACCOUNT_CODE,CHAN_AMT,NOTES"
              :: map (fun row =>
                        JStr (join ","
                                (map (fun header => csvCell (get row header))
                                     ["CHALLAN_NO"; "A_BANCD"; "A_BANKL"; "CHALL_DATE";
                                      "ACCOUNT_CODE"; "CHAN_AMT"; "NOTES"])))
                     (transformedData now raw)))).
Proof.
  split; [reflexivity|]. intros Hne.
  destruct raw as [|item raw]; [contradiction | reflexivity].
Qed.

(** X20: a column of the exported workbook is at least two wider than
    its name and than the text of each of its cells, and exactly two
    wider than one of them. *)
Theorem columnWidths_bounds (data : list object) (widths : list (string * Z))
        (col : string) (w : Z) :
  columnWidths data = Some widths ->
  In (col, w) widths ->
  (Z.of_nat (String.length col) + 2 <= w)%Z /\
  (forall row, In row (exportData data) ->
     (Z.of_nat (String.length (cellText row col)) + 2 <= w)%Z) /\
  (w = (Z.of_nat (String.length col) + 2)%Z \/
   exists row, In row (exportData data) /\
               w = (Z.of_nat (String.length (cellText row col)) + 2)%Z).
Proof.
  intros Hw Hin. unfold columnWidths in Hw.
  destruct data as [|first rest]; [discriminate|].
  injection Hw as <-. apply in_map_iff in Hin. destruct Hin as [c [Hc _]].
  injection Hc as -> <-. unfold columnWidth.
  change (excelRow first :: exportData rest) with (exportData (first :: rest)).
  set (rows := exportData (first :: rest)).
  set (lens := map (fun row => Z.of_nat (String.length (cellText row col))) rows).
  assert (Hlens : exists x l, lens = x :: l).
  { unfold lens, rows, exportData. simpl. eauto. }
  destruct Hlens as [x [l Hl]].
  destruct (Math_max_spread_bounds x l) as [Hge Hmem]. rewrite <- Hl in Hge, Hmem.
  split; [lia|]. split.
  - intros row Hrow.
    assert (In (Z.of_nat (String.length (cellText row col))) lens)
      by (unfold lens; apply in_map_iff; now exists row).
    specialize (Hge _ H). lia.
  - destruct (Z.max_spec (Z.of_nat (String.length col) + 2)
                         (Math_max_spread lens + 2)) as [[_ ->] | [_ ->]].
    + right. unfold lens in Hmem at 2. apply in_map_iff in Hmem.
      destruct Hmem as [row [Hrow Hin]]. exists row. split; [exact Hin | lia].
    + now left.
Qed.

(** X21: the workbook writer turns a text of the form dd/mm/yyyy into
    yyyy-mm-dd, with the same day, month and year, and writes any other
    text as it is. *)
Theorem excelValue_date (s : string) :
  (is_ddmmyyyy s = true ->
   exists dd mm yyyy : string,
     String.length dd = 2%nat /\ String.length mm = 2%nat /\ String.length yyyy = 4%nat /\
     s = (dd ++ "/" ++ mm ++ "/" ++ yyyy)%string /\
     excelValue (JStr s) = JStr (yyyy ++ "-" ++ mm ++ "-" ++ dd)%string) /\
  (is_ddmmyyyy s = false -> excelValue (JStr s) = JStr s).
Proof.
  split.
  - intros H. unfold excelValue. rewrite H.
    destruct s as [|d1 [|d2 [|s1 [|m1 [|m2 [|s2 [|y1 [|y2 [|y3 [|y4 [|? ?]]]]]]]]]]];
      try discriminate H.
    cbn [is_ddmmyyyy] in H. rewrite !andb_true_iff in H.
    destruct H as [[[[[[[[[Hd1 Hd2] Hs1] Hm1] Hm2] Hs2] Hy1] Hy2] Hy3] Hy4].
    apply Ascii.eqb_eq in Hs1, Hs2. subst s1 s2.
    exists (String d1 (String d2 "")), (String m1 (String m2 "")),
      (String y1 (String y2 (String y3 (String y4 "")))).
    repeat (split; [reflexivity|]).
    cbn [split]. rewrite Ascii.eqb_refl.
    rewrite (digit_is_no_slash d1), (digit_is_no_slash d2), (digit_is_no_slash m1),
      (digit_is_no_slash m2), (digit_is_no_slash y1), (digit_is_no_slash y2),
      (digit_is_no_slash y3), (digit_is_no_slash y4) by assumption.
    reflexivity.
  - intros H. unfold excelValue. now rewrite H.
Qed.

Lemma keys_set_new (o : object) (k : string) (v : jsval) :
  ~ In k (keys o) -> keys (set o k v) = keys o ++ [k].
Proof.
  induction o as [|[k' v'] o IH]; simpl; intros Hk; [reflexivity|].
  destruct (String.eqb_spec k' k) as [-> | Hne].
  - exfalso. apply Hk. now left.
  - simpl. f_equal. apply IH. intros Hin. apply Hk. now right.
Qed.

Lemma excelRow_fold_keys (row : object) (ks : list string) (acc : object) :
  NoDup ks ->
  (forall k, In k ks -> ~ In k (keys acc)) ->
  keys (fold_left (fun newRow key =>
                     if exported_key key
                     then set newRow key (excelValue (get row key))
                     else newRow) ks acc)
  = keys acc ++ filter exported_key ks.
Proof.
  revert acc; induction ks as [|k ks IH]; intros acc Hnd Hfresh; cbn [fold_left filter].
  - now rewrite app_nil_r.
  - inversion Hnd as [|? ? Hk Hnd']; subst.
    destruct (exported_key k).
    + rewrite IH; [| exact Hnd' |].
      * rewrite keys_set_new by (apply Hfresh; now left).
        now rewrite <- app_assoc.
      * intros k' Hk'. rewrite keys_set_new by (apply Hfresh; now left).
        intros Hin. apply in_app_or in Hin. destruct Hin as [Hin | [-> | []]].
        -- apply (Hfresh k'); [now right | exact Hin].
        -- contradiction.
    + apply IH; [exact Hnd'|]. intros k' Hk'. apply Hfresh. now right.
Qed.

Lemma excelRow_fold_get (row : object) (ks : list string) (acc : object) (k : string) :
  get (fold_left (fun newRow key =>
                    if exported_key key
                    then set newRow key (excelValue (get row key))
                    else newRow) ks acc) k
  = if existsb (String.eqb k) ks && exported_key k
    then excelValue (get row k)
    else get acc k.
Proof.
  revert acc; induction ks as [|k0 ks IH]; intros acc; cbn [fold_left existsb].
  - reflexivity.
  - rewrite IH. destruct (existsb (String.eqb k) ks && exported_key k) eqn:Hin.
    + apply andb_true_iff in Hin. destruct Hin as [-> ->].
      now rewrite orb_true_r.
    + destruct (String.eqb_spec k k0) as [-> | Hne]; cbn [orb].
      * destruct (exported_key k0) eqn:Hexp; cbn [andb].
        -- apply get_set_same.
        -- destruct (existsb (String.eqb k0) ks); reflexivity.
      * rewrite Hin. destruct (exported_key k0); [|reflexivity].
        apply get_set_other. congruence.
Qed.

(** X22: a row of the exported workbook has the properties of the record
    in their order, without [id] and without those whose name starts with
    an underscore; each holds the record's value as the workbook writer
    writes it, and the properties left out read as [undefined].  The
    record's property names are distinct. *)
Theorem excelRow_columns (row : object) :
  NoDup (keys row) ->
  keys (excelRow row) = filter exported_key (keys row) /\
  (forall k, In k (keys row) -> exported_key k = true ->
             get (excelRow row) k = excelValue (get row k)) /\
  (forall k, exported_key k = false -> get (excelRow row) k = JUndefined) /\
  get (excelRow row) "id" = JUndefined.
Proof.
  intros Hnd. unfold excelRow. split; [|split; [|split]].
  - now rewrite excelRow_fold_keys.
  - intros k Hk Hexp. rewrite excelRow_fold_get, Hexp, andb_true_r.
    assert (H : existsb (String.eqb k) (keys row) = true).
    { apply existsb_exists. exists k. split; [exact Hk | apply String.eqb_refl]. }
    now rewrite H.
  - intros k Hexp. rewrite excelRow_fold_get, Hexp, andb_false_r. reflexivity.
  - rewrite excelRow_fold_get. cbn. now rewrite andb_false_r.
Qed.

End ExportFacts.

(* ================================================================== *)
(** ** The application around the table *)
(* ================================================================== *)

Section AppFacts.
Context {host : Host}.

(** X23: whatever the user does, in any order, the statistics follow the
    rows: when statistics are shown their row count is the number of rows
    held and their column count, if set, the number of headers; when none
    are shown there are no rows and no headers. *)
Theorem stats_follow_data (events : list AppEvent) :
  let s := fold_left app_step events app_initial in
  (forall st, stats s = Some st ->
     rowCount st = Some (length (app_data s)) /\
     (forall c, columnCount st = Some c -> c = length (app_headers s))) /\
  (stats s = None -> app_data s = [] /\ app_headers s = []).
Proof.
  induction events as [|e events IH] using rev_ind; cbv zeta.
  - split; [discriminate | split; reflexivity].
  - rewrite fold_left_app. cbn [fold_left].
    set (s := fold_left app_step events app_initial) in *. cbv zeta in IH.
    destruct IH as [IHsome IHnone]. destruct e as [file now raw | file f | d |].
    + cbn [app_step handleFileUpload parsed result_error result_data result_headers
             result_rowCount stats app_data app_headers].
      split; [|discriminate]. intros st Hst. injection Hst as <-.
      cbn [rowCount columnCount]. split; [reflexivity|].
      intros c Hc. now injection Hc as <-.
    + destruct f; cbn; (split; [discriminate | split; reflexivity]).
    + cbn [app_step handleDataChange stats app_data app_headers].
      split; [|discriminate]. intros st Hst. injection Hst as <-.
      cbn [rowCount columnCount]. split; [reflexivity|].
      intros c Hc. destruct (stats s) as [prev|] eqn:Hprev; [|discriminate].
      destruct (IHsome prev eq_refl) as [_ Hcol]. now apply Hcol.
    + cbn. split; [discriminate | split; reflexivity].
Qed.

(** X24: a failed upload empties rows, headers and statistics and shows
    the message, which is never empty; the name of the file shown is
    still that of the upload before. *)
Theorem failed_upload_clears (file : File) (f : Failure) (s : AppState) :
  let s' := handleFileUpload file (parse_failed f) s in
  app_data s' = [] /\ app_headers s' = [] /\ stats s' = None /\
  (exists message, error s' = Some message /\ message <> "") /\
  fileName s' = fileName s.
Proof.
  destruct f; cbn; repeat split; eexists; (split; [reflexivity | discriminate]).
Qed.

End AppFacts.

Section WindowFacts.
Context {host : Host}.

(** X25: a new search term and a new page size both go back to the first
    page: the window is then the first rows of the displayed sequence, as
    many as a page holds, and a new search term leaves nothing selected. *)
Theorem back_to_first_rows (st : State) :
  (forall (term : string) (n : nat),
      itemsPerPage st = Z.of_nat n ->
      paginatedData (onSearchTermChange term st)
      = firstn n (displayData (onSearchTermChange term st)) /\
      selectedRows (onSearchTermChange term st) = []) /\
  (forall n : nat,
      paginatedData (handleItemsPerPageChange (Z.of_nat n) st)
      = firstn n (displayData st)).
Proof.
  split.
  - intros term n Hn. split; [|reflexivity].
    unfold paginatedData, startIndex, endIndex.
    change (currentPage (onSearchTermChange term st)) with 1%Z.
    change (itemsPerPage (onSearchTermChange term st)) with (itemsPerPage st).
    rewrite Hn. change ((1 - 1) * Z.of_nat n)%Z with (Z.of_nat 0).
    apply slice_window.
  - intros n. unfold paginatedData, startIndex, endIndex.
    change (currentPage (handleItemsPerPageChange (Z.of_nat n) st)) with 1%Z.
    change (itemsPerPage (handleItemsPerPageChange (Z.of_nat n) st)) with (Z.of_nat n).
    change (displayData (handleItemsPerPageChange (Z.of_nat n) st)) with (displayData st).
    change ((1 - 1) * Z.of_nat n)%Z with (Z.of_nat 0).
    apply slice_window.
Qed.

(** X26: the selection stays when the page changes, and the header
    checkbox follows the page: after select-all, on a page that shows a
    row whose id was not on the page selected, it is not ticked. *)
Theorem indicator_follows_page (page : Z) (st : State) (row : object) :
  In row (paginatedData (handlePageChange page st)) ->
  (forall p, In p (paginatedData st) -> same_value_zero (id row) (id p) = false) ->
  selectedRows (handlePageChange page (handleSelectAll true st))
  = selectedRows (handleSelectAll true st) /\
  isAllSelected (handlePageChange page (handleSelectAll true st)) = false.
Proof.
  intros Hrow Hother. split; [reflexivity|].
  unfold isAllSelected. apply andb_false_iff. right.
  apply not_true_is_false. intros Hall. rewrite forallb_forall in Hall.
  assert (Hin : In row (paginatedData (handlePageChange page (handleSelectAll true st))))
    by exact Hrow.
  specialize (Hall row Hin).
  change (selectedRows (handlePageChange page (handleSelectAll true st)))
    with (new_Set (map id (paginatedData st))) in Hall.
  rewrite has_new_Set in Hall. apply existsb_exists in Hall.
  destruct Hall as [v [Hv Hs]]. apply in_map_iff in Hv. destruct Hv as [p [<- Hp]].
  rewrite (Hother p Hp) in Hs. discriminate.
Qed.

End WindowFacts.

(* ================================================================== *)
(** ** The properties above, on the sample data *)
(* ================================================================== *)

Lemma long_first_page_ids :
  forall row, In row (paginatedData Sample.long) ->
              same_value_zero (id row) (id row) = true.
Proof.
  intros row Hrow. vm_compute in Hrow.
  repeat (destruct Hrow as [<- | Hrow]; [reflexivity|]). destruct Hrow.
Qed.

Lemma handleSelectRow_flips_witness :
  same_value_zero (JNum (Fin 2)) (JNum (Fin 2)) = true /\
  has (selectedRows (handleSelectRow (JNum (Fin 2)) Sample.amounts)) (JNum (Fin 2))
  = negb (has (selectedRows Sample.amounts) (JNum (Fin 2))).
Proof.
  split; [reflexivity|].
  exact (proj1 (handleSelectRow_flips (JNum (Fin 2)) Sample.amounts eq_refl)).
Defined.

Lemma handleSelectAll_page_witness :
  (forall row, In row (paginatedData Sample.long) ->
               same_value_zero (id row) (id row) = true) /\
  isAllSelected (handleSelectAll true Sample.long)
  = (0 <? length (paginatedData Sample.long))%nat.
Proof.
  split; [exact long_first_page_ids|].
  exact (proj1 (proj2 (handleSelectAll_page Sample.long long_first_page_ids))).
Defined.

Lemma handlePageChange_valid_witness :
  (0 < itemsPerPage Sample.long)%Z /\
  (1 <= currentPage (handlePageChange 7 Sample.long))%Z.
Proof.
  split; [reflexivity|].
  exact (proj1 (handlePageChange_valid 7 Sample.long eq_refl)).
Defined.


Lemma search_narrows_witness :
  "bank01" <> "" /\
  occurs_in (toLowerCase "bank") (toLowerCase "bank01") /\
  In (Sample.row 2 "BANK01" "50")
     (filteredData (onSearchTermChange "bank01" Sample.amounts)) /\
  In (Sample.row 2 "BANK01" "50")
     (filteredData (onSearchTermChange "bank" Sample.amounts)).
Proof.
  assert (Hocc : occurs_in (toLowerCase "bank") (toLowerCase "bank01"))
    by (exists "", "01"; reflexivity).
  assert (Hin : In (Sample.row 2 "BANK01" "50")
                   (filteredData (onSearchTermChange "bank01" Sample.amounts)))
    by (vm_compute; left; reflexivity).
  split; [discriminate|]. split; [exact Hocc|]. split; [exact Hin|].
  apply (search_narrows "bank" "bank01" Sample.amounts);
    [discriminate | exact Hocc | exact Hin].
Defined.

Lemma displayData_ignores_id_witness :
  ~ In "id" (headers (handleSort "CHAN_AMT" (onSearchTermChange "50" Sample.amounts))) /\
  key (sortConfig (handleSort "CHAN_AMT" (onSearchTermChange "50" Sample.amounts)))
  <> Some "id" /\
  map id (displayData (handleSort "CHAN_AMT" (onSearchTermChange "50" Sample.amounts)))
  = [JNum (Fin 2); JNum (Fin 1)] /\
  displayData
    (onDataChange
       (map (reidentify (fun _ => JNum (Fin 99)))
            (data (handleSort "CHAN_AMT" (onSearchTermChange "50" Sample.amounts))))
       (handleSort "CHAN_AMT" (onSearchTermChange "50" Sample.amounts)))
  = map (reidentify (fun _ => JNum (Fin 99)))
        (displayData (handleSort "CHAN_AMT" (onSearchTermChange "50" Sample.amounts))).
Proof.
  assert (Hid : ~ In "id" (headers (handleSort "CHAN_AMT"
                                      (onSearchTermChange "50" Sample.amounts))))
    by (simpl; intros [H | [H | []]]; discriminate H).
  assert (Hkey : key (sortConfig (handleSort "CHAN_AMT"
                                    (onSearchTermChange "50" Sample.amounts)))
                 <> Some "id") by discriminate.
  split; [exact Hid|]. split; [exact Hkey|]. split; [vm_compute; reflexivity|].
  exact (displayData_ignores_id (fun _ => JNum (Fin 99))
           (handleSort "CHAN_AMT" (onSearchTermChange "50" Sample.amounts)) Hid Hkey).
Defined.

Lemma tied_is_consistent :
  consistent_on (comparator "CHAN_AMT" asc)
                (filteredData (handleSort "CHAN_AMT" Sample.tied)).
Proof.
  change (filteredData (handleSort "CHAN_AMT" Sample.tied)) with (data Sample.tied).
  unfold consistent_on. split; [|split].
  - intros a Ha. simpl in Ha. destruct Ha as [<- | [<- | []]]; split; reflexivity.
  - intros a b Ha Hb. simpl in Ha, Hb.
    destruct Ha as [<- | [<- | []]]; destruct Hb as [<- | [<- | []]]; reflexivity.
  - intros a b c Ha Hb Hc _ _. simpl in Ha, Hc.
    destruct Ha as [<- | [<- | []]]; destruct Hc as [<- | [<- | []]]; reflexivity.
Qed.

Lemma tied_is_in_order :
  ForallOrdPairs (fun a b => number_gt0 (comparator "CHAN_AMT" asc a b) = false)
                 (filteredData (handleSort "CHAN_AMT" Sample.tied)).
Proof.
  change (filteredData (handleSort "CHAN_AMT" Sample.tied)) with (data Sample.tied).
  unfold Sample.tied, mount, data. repeat constructor.
Qed.

Lemma sortedData_keeps_ordered_witness :
  sortConfig (handleSort "CHAN_AMT" Sample.tied)
  = {| key := Some "CHAN_AMT"; dir := asc |} /\
  "CHAN_AMT" <> "" /\
  consistent_on (comparator "CHAN_AMT" asc)
                (filteredData (handleSort "CHAN_AMT" Sample.tied)) /\
  sortedData (handleSort "CHAN_AMT" Sample.tied)
  = filteredData (handleSort "CHAN_AMT" Sample.tied).
Proof.
  assert (Hk : "CHAN_AMT" <> "") by discriminate.
  split; [reflexivity|]. split; [exact Hk|]. split; [exact tied_is_consistent|].
  refine (proj1 (sortedData_keeps_ordered (handleSort "CHAN_AMT" Sample.tied) "CHAN_AMT" asc
           eq_refl Hk tied_is_consistent tied_is_in_order)).
Defined.

Lemma prices_are_numbers :
  forall row, In row (filteredData (handleSort "CHAN_AMT" Cases.prices)) ->
              get row "CHAN_AMT" = JNum (Fin (Cases.amount_of row)).
Proof.
  intros row Hrow. vm_compute in Hrow.
  repeat (destruct Hrow as [<- | Hrow]; [reflexivity|]). destruct Hrow.
Qed.

Lemma prices_differ :
  forall a b, In a (filteredData (handleSort "CHAN_AMT" Cases.prices)) ->
              In b (filteredData (handleSort "CHAN_AMT" Cases.prices)) ->
              a <> b -> ~ (Cases.amount_of a == Cases.amount_of b)%Q.
Proof.
  intros a b Ha Hb Hne. vm_compute in Ha, Hb.
  destruct Ha as [<- | [<- | [<- | []]]]; destruct Hb as [<- | [<- | [<- | []]]];
    try contradiction; vm_compute; discriminate.
Qed.

Lemma numeric_column_sorted_witness :
  sortConfig (handleSort "CHAN_AMT" Cases.prices)
  = {| key := Some "CHAN_AMT"; dir := asc |} /\
  "CHAN_AMT" <> "" /\
  NoDup (filteredData (handleSort "CHAN_AMT" Cases.prices)) /\
  sortedData (handleSort "CHAN_AMT" (handleSort "CHAN_AMT" Cases.prices))
  = rev (sortedData (handleSort "CHAN_AMT" Cases.prices)).
Proof.
  assert (Hnd : NoDup (filteredData (handleSort "CHAN_AMT" Cases.prices))).
  { change (filteredData (handleSort "CHAN_AMT" Cases.prices)) with (data Cases.prices).
    unfold Cases.prices, mount, data.
    repeat constructor; simpl; intuition discriminate. }
  assert (Hk : "CHAN_AMT" <> "") by discriminate.
  split; [reflexivity|]. split; [exact Hk|]. split; [exact Hnd|].
  exact (proj2 (numeric_column_sorted (handleSort "CHAN_AMT" Cases.prices) "CHAN_AMT"
                  Cases.amount_of eq_refl Hk prices_are_numbers prices_differ Hnd)).
Defined.

Lemma handleSort_alternates_witness :
  key (sortConfig Sample.amounts) <> Some "CHAN_AMT" /\
  sortConfig (Nat.iter 3 (handleSort "CHAN_AMT") Sample.amounts)
  = {| key := Some "CHAN_AMT"; dir := asc |}.
Proof.
  assert (Hnew : key (sortConfig Sample.amounts) <> Some "CHAN_AMT") by discriminate.
  split; [exact Hnew|].
  exact (proj1 (handleSort_alternates "CHAN_AMT" Sample.amounts 2 Hnew)).
Defined.

Lemma added_is_fresh :
  forall r, In r (data Sample.amounts) -> strict_equals (id r) (id Cases.added) = false.
Proof.
  intros r Hr. simpl in Hr.
  repeat (destruct Hr as [<- | Hr]; [reflexivity|]). destruct Hr.
Qed.

Lemma add_then_delete_row_witness :
  strict_equals (id Cases.added) (id Cases.added) = true /\
  (forall r, In r (data Sample.amounts) ->
             strict_equals (id r) (id Cases.added) = false) /\
  data (handleDeleteRow (id Cases.added) true
          (handleSaveRow Cases.added
             (handleAddRow (Sample.now 0) "24/02/2026" Sample.amounts)))
  = data Sample.amounts.
Proof.
  split; [reflexivity|]. split; [exact added_is_fresh|].
  exact (proj1 (add_then_delete_row (Sample.now 0) "24/02/2026" Cases.added
                  Sample.amounts eq_refl added_is_fresh)).
Defined.

Lemma select_all_then_delete_witness :
  (forall row, In row (paginatedData Sample.long) ->
               same_value_zero (id row) (id row) = true) /\
  selectedRows (handleDeleteSelected true (handleSelectAll true Sample.long)) = [].
Proof.
  split; [exact long_first_page_ids|].
  exact (proj1 (select_all_then_delete Sample.long long_first_page_ids)).
Defined.

Lemma modal_edit_keeps_id_witness :
  ~ In "id" (map fst Cases.typing) /\
  id (typed Cases.typing (Sample.row 2 "BANK01" "50")) = id (Sample.row 2 "BANK01" "50").
Proof.
  assert (Hid : ~ In "id" (map fst Cases.typing))
    by (simpl; intros [H | [H | []]]; discriminate H).
  split; [exact Hid|].
  exact (proj1 (modal_edit_keeps_id Cases.typing (Sample.row 2 "BANK01" "50")
                  Sample.amounts Hid)).
Defined.

Lemma sample_clock_goes_on :
  forall i j, (i <= j)%nat -> (Cases.time i <= Cases.time j)%Q.
Proof. intros i j Hij. unfold Cases.time. rewrite <- Zle_Qle. lia. Qed.

Lemma ingestion_ids_distinct_witness :
  (forall i, Sample.now i = Fin (Cases.time i)) /\
  (forall i j, (i <= j)%nat -> (Cases.time i <= Cases.time j)%Q) /\
  strict_equals (id (transformRow (Sample.now 0) 0 Sample.item))
                (id (transformRow (Sample.now 1) 1 Sample.item)) = false.
Proof.
  split; [reflexivity|]. split; [exact sample_clock_goes_on|].
  exact (proj1 (ingestion_ids_distinct Sample.now Cases.time [Sample.item; Sample.item]
                  (fun i => eq_refl) sample_clock_goes_on 0 1 _ _
                  (Nat.lt_0_1) eq_refl eq_refl)).
Defined.

Lemma csvCell_injective_witness :
  csvCell (JStr "AB,12") = csvCell (JStr "AB,12") /\ "AB,12" = "AB,12".
Proof.
  split; [reflexivity|]. apply csvCell_injective. reflexivity.
Defined.

Lemma columnWidths_bounds_witness :
  columnWidths (data Sample.amounts) = Some [("A_BANCD", 9%Z); ("CHAN_AMT", 10%Z)] /\
  In ("CHAN_AMT", 10%Z) [("A_BANCD", 9%Z); ("CHAN_AMT", 10%Z)] /\
  (Z.of_nat (String.length "CHAN_AMT") + 2 <= 10)%Z.
Proof.
  assert (Hin : In ("CHAN_AMT", 10%Z) [("A_BANCD", 9%Z); ("CHAN_AMT", 10%Z)])
    by (right; left; reflexivity).
  split; [reflexivity|]. split; [exact Hin|].
  exact (proj1 (columnWidths_bounds (data Sample.amounts)
                  [("A_BANCD", 9%Z); ("CHAN_AMT", 10%Z)] "CHAN_AMT" 10 eq_refl Hin)).
Defined.

Lemma excelRow_columns_witness :
  NoDup (keys (Sample.row 1 "BANK00" "500")) /\
  keys (excelRow (Sample.row 1 "BANK00" "500")) = ["A_BANCD"; "CHAN_AMT"].
Proof.
  assert (Hnd : NoDup (keys (Sample.row 1 "BANK00" "500")))
    by (repeat constructor; simpl; intuition discriminate).
  split; [exact Hnd|].
  exact (proj1 (excelRow_columns (Sample.row 1 "BANK00" "500") Hnd)).
Defined.

Lemma second_page_ids_not_on_first :
  forall p, In p (paginatedData Sample.long) ->
            same_value_zero (id (Sample.row 11 "BANK00" "1")) (id p) = false.
Proof.
  intros p Hp. vm_compute in Hp.
  repeat (destruct Hp as [<- | Hp]; [reflexivity|]). destruct Hp.
Qed.

Lemma indicator_follows_page_witness :
  In (Sample.row 11 "BANK00" "1") (paginatedData (handlePageChange 2 Sample.long)) /\
  isAllSelected (handlePageChange 2 (handleSelectAll true Sample.long)) = false.
Proof.
  assert (Hin : In (Sample.row 11 "BANK00" "1")
                   (paginatedData (handlePageChange 2 Sample.long)))
    by (vm_compute; left; reflexivity).
  split; [exact Hin|].
  exact (proj2 (indicator_follows_page 2 Sample.long (Sample.row 11 "BANK00" "1")
                  Hin second_page_ids_not_on_first)).
Defined.

(** The scenario of the specification for the CSV writer. *)
Example csv_scenario :
  csvCell (JStr "AB,12") = JStr (String quote ("AB,12" ++ String quote "")) /\
  csvCell (JStr (String quote ("hi" ++ String quote "")))
  = JStr (String quote (String quote (String quote ("hi" ++ String quote
            (String quote (String quote "")))))).
Proof. split; reflexivity. Qed.

Example workbook_date :
  excelValue (JStr "24/02/2026") = JStr "2026-02-24" /\
  excelValue (JStr "20260224") = JStr "20260224".
Proof. split; reflexivity. Qed.
